(** * SkipJSDebugger: the CDP proxy server (cdp_server/go/main.go)

    A shallow embedding of the Go proxy that sits between a DevTools
    frontend and a browser's remote-debugging WebSocket, and the proofs of
    its specification's properties.

    Conventions of the embedding.
    - A Go [string] / [[]byte] is a Rocq [string]: a sequence of 8-bit
      characters.  [[]byte(s)] and [string(b)] are the identity.
    - A Go [error] is an [option string]: [None] is [nil].
    - A Go function that touches a connection takes the connection's state
      and returns the new one (explicit state passing); whatever it can do
      besides returning (panic, park on a channel, end the process) is a
      constructor of [Outcome].
    - Each method body that runs under the connection's mutex is one atomic
      function; a method that releases the mutex half way is split at that
      point, so that another task's step can be put in between.
    - Calls to the logger write to a log file only and are left out. *)

From Stdlib Require Import ZArith Lia Bool Ascii String List.
From stdpp Require Import base gmap strings.
Import ListNotations.

Local Open Scope string_scope.
Local Open Scope list_scope.

(** String append computes under [simpl], as a fixpoint does by default. *)
#[local] Arguments String.append !_ _ / : simpl nomatch.

(** ** Text *)

(** The double quote, built from its code so that no literal needs one. *)
Definition dquote : ascii := Ascii false true false false false true false false.

(** [q s] is [s] with every apostrophe read as a double quote: the Go raw
    literals of the source are transcribed with ['] standing for the quote
    character. *)
Fixpoint q (s : string) : string :=
  match s with
  | EmptyString => EmptyString
  | String c s' => String (if Ascii.eqb c "'"%char then dquote else c) (q s')
  end.

(** The package [strings] of the Go library, as far as the handlers use it. *)
Module strings.

(** [strings.HasPrefix(s, prefix)]. *)
Fixpoint HasPrefix (s prefix : string) {struct prefix} : bool :=
  match prefix, s with
  | EmptyString, _ => true
  | String p prefix', String c s' => Ascii.eqb c p && HasPrefix s' prefix'
  | String _ _, EmptyString => false
  end.

(** [strings.Index(s, substr)]: the offset of the leftmost instance of
    [substr] in [s]; Go's -1 is [None]. *)
Fixpoint Index (s substr : string) : option nat :=
  if HasPrefix s substr then Some 0
  else match s with
       | EmptyString => None
       | String _ s' => option_map S (Index s' substr)
       end.

(** [strings.Contains(s, substr)] is [Index(s, substr) >= 0]. *)
Definition Contains (s substr : string) : bool :=
  match Index s substr with Some _ => true | None => false end.

(** Drop the first [n] characters: the slice [s[n:]]. *)
Fixpoint skip (n : nat) (s : string) : string :=
  match n, s with
  | O, _ => s
  | S n', String _ s' => skip n' s'
  | S _, EmptyString => EmptyString
  end.

(** The copy loop of [strings.Replace] for a non-empty [old].  [n] is the
    number of replacements still allowed and [k] the number of characters
    of the instance just replaced that are still to be passed over. *)
Fixpoint replace_loop (s old new : string) (n k : nat) : string :=
  match s with
  | EmptyString => EmptyString
  | String c s' =>
      match k with
      | S k' => replace_loop s' old new n k'
      | O =>
          match n with
          | O => s
          | S n' =>
              if HasPrefix s old
              then new +:+ replace_loop s' old new n' (String.length old - 1)
              else String c (replace_loop s' old new n 0)
          end
      end
  end.

(** [strings.Replace(s, old, new, n)] for a non-empty [old], which is what
    the handler passes: the first [n] non-overlapping instances of [old]
    are replaced by [new], all of them when [n < 0].  (For an empty
    [old] Go inserts [new] between the runes of [s]; that case is not
    described here.) *)
Definition Replace (s old new : string) (n : Z) : string :=
  if String.eqb old new || (n =? 0)%Z then s
  else replace_loop s old new
         (if (n <? 0)%Z then String.length s else Z.to_nat n) 0.

End strings.

(** ** Outcomes of a call *)

(** What a call can do: return, panic (a Go run-time panic, which ends the
    process unless recovered; nothing in the source recovers), park the
    calling task on a channel operation, or end the process through
    [log.Fatal], which is [os.Exit(1)] after the message is printed. *)
Inductive Outcome (A : Type) : Type :=
| Ok (a : A)
| Panic (reason : string)
| Blocked
| Fatal (message : string).
Arguments Ok {A} a.
Arguments Panic {A} reason.
Arguments Blocked {A}.
Arguments Fatal {A} message.

#[global] Instance Outcome_ret : MRet Outcome := fun A a => Ok a.

#[global] Instance Outcome_bind : MBind Outcome := fun A B k m =>
  match m with
  | Ok a => k a
  | Panic r => Panic r
  | Blocked => Blocked
  | Fatal r => Fatal r
  end.

(** ** Channels *)

(** [const buffer_size = 1024 * 1024]: the capacity, in messages, of both
    channels of a connection. *)
Definition buffer_size : Z := 1024 * 1024.

(** A buffered [chan []byte]: the queued messages, oldest first, and
    whether [close] was called on it. *)
Record chan : Type := mkchan {
  buf : list string;
  closed : bool;
}.

(** [make(chan []byte, buffer_size)]. *)
Definition make_chan : chan := {| buf := []; closed := false |}.

(** [ch <- v]: panics on a closed channel, parks the sender while the
    buffer is full. *)
Definition chan_send (ch : chan) (v : string) : Outcome chan :=
  if closed ch then Panic "send on closed channel"
  else if (Z.of_nat (length (buf ch)) <? buffer_size)%Z
       then Ok {| buf := buf ch ++ [v]; closed := closed ch |}
       else Blocked.

(** [<-ch]: the oldest queued message; on an empty channel the zero value
    ([nil], the empty message) once the channel is closed, and parked until
    then. *)
Definition chan_recv (ch : chan) : Outcome (string * chan) :=
  match buf ch with
  | v :: rest => Ok (v, {| buf := rest; closed := closed ch |})
  | [] => if closed ch then Ok (EmptyString, ch) else Blocked
  end.

(** [close(ch)]: panics when the channel is closed already. *)
Definition chan_close (ch : chan) : Outcome chan :=
  if closed ch then Panic "close of closed channel"
  else Ok {| buf := buf ch; closed := true |}.

(** ** MyWSConnection *)

(** [type MyWSConnection struct].  [conn], the gorilla WebSocket, is kept
    as what the proxy can observe of it: whether [conn.Close()] was called.
    The mutex [m] is the atomicity of the functions below. *)
Record MyWSConnection : Type := mkconn {
  Name : string;
  conn_closed : bool;
  msg_sender : chan;
  msg_reciver : chan;
  is_closed : bool;
}.

Definition NewMyWSConnection (name : string) : MyWSConnection :=
  {| Name := name;
     conn_closed := false;
     msg_sender := make_chan;
     msg_reciver := make_chan;
     is_closed := false |}.

Definition is_Closed (c : MyWSConnection) : bool := is_closed c.

(** [fmt.Errorf("%s connection closed", c.Name)]. *)
Definition closed_error (c : MyWSConnection) : string :=
  Name c +:+ " connection closed".

(** [WriteMessage]: the error when the connection is closed, else the
    message is sent on [msg_sender].  (The mutex is held inside [is_Closed]
    only; this is the method when no other task runs between the test and
    the send.) *)
Definition WriteMessage (c : MyWSConnection) (msg : string)
  : Outcome (option string * MyWSConnection) :=
  if is_Closed c then Ok (Some (closed_error c), c)
  else
    ch ← chan_send (msg_sender c) msg;
    Ok (None, {| Name := Name c; conn_closed := conn_closed c;
                 msg_sender := ch; msg_reciver := msg_reciver c;
                 is_closed := is_closed c |}).

(** [ReadMessage] holds the mutex only inside [is_Closed]; the receive that
    follows runs without it.  [ReadMessage_recv] is that second half:
    [msg = <-c.msg_reciver; return msg, nil]. *)
Definition ReadMessage_recv (c : MyWSConnection)
  : Outcome (string * option string * MyWSConnection) :=
  '(msg, ch) ← chan_recv (msg_reciver c);
  Ok (msg, None, {| Name := Name c; conn_closed := conn_closed c;
                    msg_sender := msg_sender c; msg_reciver := ch;
                    is_closed := is_closed c |}).

(** [ReadMessage] when no other task runs between its two halves. *)
Definition ReadMessage (c : MyWSConnection)
  : Outcome (string * option string * MyWSConnection) :=
  if is_Closed c then Ok (EmptyString, Some (closed_error c), c)
  else ReadMessage_recv c.

(** [Close]: under the mutex, the two channels are closed and the flag set
    unless the flag is set already; [conn.Close()] is called every time. *)
Definition Close (c : MyWSConnection) : Outcome MyWSConnection :=
  if negb (is_closed c) then
    s ← chan_close (msg_sender c);
    r ← chan_close (msg_reciver c);
    Ok {| Name := Name c; conn_closed := true;
          msg_sender := s; msg_reciver := r; is_closed := true |}
  else
    Ok {| Name := Name c; conn_closed := true;
          msg_sender := msg_sender c; msg_reciver := msg_reciver c;
          is_closed := is_closed c |}.

(** The second half of [WriteMessage], which runs without the mutex:
    [c.msg_sender <- msg; return nil]. *)
Definition WriteMessage_send (c : MyWSConnection) (msg : string)
  : Outcome (option string * MyWSConnection) :=
  ch ← chan_send (msg_sender c) msg;
  Ok (None, {| Name := Name c; conn_closed := conn_closed c;
               msg_sender := ch; msg_reciver := msg_reciver c;
               is_closed := is_closed c |}).

(** One turn of the reader task of [start]: [read] is what
    [c.conn.ReadMessage()] gave, a frame or an error.  The result says
    whether the task goes on; when it returns, its deferred [c.Close()]
    runs. *)
Definition start_reader_turn (c : MyWSConnection) (read : string + string)
  : Outcome (bool * MyWSConnection) :=
  match read with
  | inr _ => c' ← Close c; Ok (false, c')
  | inl msg =>
      if is_Closed c then c' ← Close c; Ok (false, c')
      else
        ch ← chan_send (msg_reciver c) msg;
        Ok (true, {| Name := Name c; conn_closed := conn_closed c;
                     msg_sender := msg_sender c; msg_reciver := ch;
                     is_closed := is_closed c |})
  end.

(** One turn of the writer loop of [start], [for msg := range c.msg_sender]:
    [write_err] is the result of [c.conn.WriteMessage] should the turn get
    that far.  The loop ends when the channel is closed and drained. *)
Definition start_writer_turn (c : MyWSConnection) (write_err : option string)
  : Outcome (bool * MyWSConnection) :=
  match buf (msg_sender c) with
  | [] => if closed (msg_sender c) then c' ← Close c; Ok (false, c') else Blocked
  | _ :: rest =>
      let c1 := {| Name := Name c; conn_closed := conn_closed c;
                   msg_sender := {| buf := rest; closed := closed (msg_sender c) |};
                   msg_reciver := msg_reciver c; is_closed := is_closed c |} in
      if is_Closed c1 then c' ← Close c1; Ok (false, c')
      else match write_err with
           | Some _ => c' ← Close c1; Ok (false, c')
           | None => Ok (true, c1)
           end
  end.

(** ** The CDP types read from JSON *)

(** An element of [CallFrames]: [struct { FunctionName string }]. *)
Record CallFrame : Type := mkframe {
  FunctionName : string;
}.

Record DebuggerPausedParams : Type := mkparams {
  Reason : string;
  HitBreakpoints : list string;
  CallFrames : list CallFrame;
}.

Record DebuggerPaused : Type := mkpaused {
  Method : string;
  Params : DebuggerPausedParams;
}.

Record ConnectionInfo : Type := mkinfo {
  cid : string;
  des : string;
}.

(** [type TransimiterHandler]: the source connection, the description of
    the link and the message, to the message to forward and whether to
    forward it.  The source connection is passed because a handler may
    answer on it. *)
Definition TransimiterHandler : Type :=
  MyWSConnection -> ConnectionInfo -> string ->
  Outcome (string * bool * MyWSConnection).

(** ** The handlers *)

Definition Author : string := "From 52pj".

(** The two commands the proxy sends to the page on its own. *)
Definition stepOut_command : string :=
  Eval cbv in q "{'id':0,'method':'Debugger.stepOut','params':{}}".

Definition resume_command : string :=
  Eval cbv in
    q "{'id':0,'method':'Debugger.resume','params':{'terminateOnResume':false}}".

(** The text searched for by the first rule of [handle_msg_from_web]. *)
Definition id_zero : string := Eval cbv in q "'id':0".

Definition handle_msg_from_devtools : TransimiterHandler :=
  fun _from cinfo msg =>
    let msg :=
      if strings.Contains msg "Overlay.setPausedInDebuggerMessage"
      then strings.Replace msg "Paused in debugger"
             ("Paused in debugger - Surprise " +:+ Author) 1
      else msg in
    Ok (msg, true, _from).

Section Handlers.

(** The name given by the flag [-debugger]. *)
Variable MYDEBUGGER_NAME : string.

(** [json.Unmarshal(msg, &cdp_res)] on a zero [cdp_res]: the decoded
    value, or [None] when the call returns an error.  [Json.Unmarshal]
    below is a model of it. *)
Variable json_Unmarshal : string -> option DebuggerPaused.

(** Returns [true] when the pause was dealt with and is not to be
    forwarded. *)
Definition process_debugger_paused
    (_from : MyWSConnection) (cinfo : ConnectionInfo)
    (params : DebuggerPausedParams) : Outcome (bool * MyWSConnection) :=
  let is_js_debugger :=
    String.eqb (Reason params) "other"
    && Nat.eqb (length (HitBreakpoints params)) 0 in
  if negb is_js_debugger then Ok (false, _from)
  else
    match CallFrames params with
    | [] => Panic "runtime error: index out of range [0] with length 0"
    | frame0 :: _ =>
        let is_my_debugger := String.eqb (FunctionName frame0) MYDEBUGGER_NAME in
        if is_my_debugger then
          '(err, c) ← WriteMessage _from stepOut_command;
          match err with
          | Some _ => Ok (false, c)
          | None => Ok (true, c)
          end
        else
          '(err, c) ← WriteMessage _from resume_command;
          match err with
          | Some _ => Ok (false, c)
          | None => Ok (true, c)
          end
    end.

Definition handle_msg_from_web : TransimiterHandler :=
  fun _from cinfo msg =>
    if strings.Contains msg id_zero then Ok (EmptyString, false, _from)
    else
      match json_Unmarshal msg with
      | Some cdp_res =>
          if String.eqb (Method cdp_res) "Debugger.paused" then
            '(handled, c) ← process_debugger_paused _from cinfo (Params cdp_res);
            if handled : bool then Ok (EmptyString, false, c)
            else Ok (msg, true, c)
          else Ok (msg, true, _from)
      | None => Ok (msg, true, _from)
      end.

End Handlers.

(** ** The forwarding loop *)

(** The call of the handler in [transimiter]: without a handler
    ([handler == nil]) the message is forwarded as it is. *)
Definition call_handler (handler : option TransimiterHandler)
    (_from : MyWSConnection) (cinfo : ConnectionInfo) (message : string)
  : Outcome (string * bool * MyWSConnection) :=
  match handler with
  | Some h => h _from cinfo message
  | None => Ok (message, true, _from)
  end.

(** A turn of the loop of [transimiter] from after its read: the handler
    is called on the message read, and what it lets through is written to
    [_to].  [false] means the function returns. *)
Definition transimiter_deliver (handler : option TransimiterHandler)
    (_from _to : MyWSConnection) (cinfo : ConnectionInfo) (message : string)
  : Outcome (bool * MyWSConnection * MyWSConnection) :=
  '(message, is_ok, from1) ← call_handler handler _from cinfo message;
  if is_ok : bool then
    '(err, to1) ← WriteMessage _to message;
    match err with
    | Some _ => Ok (false, from1, to1)
    | None => Ok (true, from1, to1)
    end
  else Ok (true, from1, _to).

(** One turn of the loop of [transimiter], when no other task touches the
    connections during it.  [false] means the function returns, upon
    which its deferred calls close both connections. *)
Definition transimiter_turn (handler : option TransimiterHandler)
    (_from _to : MyWSConnection) (cinfo : ConnectionInfo)
  : Outcome (bool * MyWSConnection * MyWSConnection) :=
  '(message, err, from1) ← ReadMessage _from;
  match err with
  | Some _ => Ok (false, from1, _to)
  | None => transimiter_deliver handler from1 _to cinfo message
  end.

(** The deferred calls of [transimiter]: [_from.Close()], then
    [_to.Close()]. *)
Definition transimiter_return (_from _to : MyWSConnection)
  : Outcome (MyWSConnection * MyWSConnection) :=
  _from ← Close _from;
  _to ← Close _to;
  Ok (_from, _to).

(** ** A model of [encoding/json] *)

(** [json.Unmarshal] as the Go library documents and implements it, for the
    one destination type the proxy uses, [*DebuggerPaused].  The input is
    first checked to be one well-formed JSON value (of nesting depth at
    most 10000) and then decoded member by member, in input order:
    - a key selects the field whose tag it equals, or else equals under
      Unicode simple case folding; other keys are passed over;
    - [null] leaves a string or a struct as it is and makes a slice [nil];
    - a value of the wrong JSON kind makes [Unmarshal] return an
      [UnmarshalTypeError]: [None] here, as for a syntax error;
    - a string literal is unquoted with its escapes decoded and ill-formed
      UTF-8 replaced by U+FFFD.
    A slice is decoded into fresh elements, as documented (the slice is
    reset to length zero and each element appended). *)
Module Json.

(** JSON values; a number is checked and not kept, since no field of the
    destination is numeric. *)
#[warnings="-register-all"]
Inductive value : Type :=
| Null
| Bool (b : bool)
| Number
| Str (s : string)
| Array (elements : list value)
| Object (members : list (string * value)).

Definition eqc (c d : ascii) : bool := Ascii.eqb c d.

Definition is_space (c : ascii) : bool :=
  eqc c " " || eqc c "009" || eqc c "013" || eqc c "010".

Fixpoint skip_space (s : string) : string :=
  match s with
  | String c s' => if is_space c then skip_space s' else s
  | EmptyString => s
  end.

Definition is_digit (c : ascii) : bool :=
  (48 <=? N_of_ascii c)%N && (N_of_ascii c <=? 57)%N.

Definition hex_digit (c : ascii) : option N :=
  let n := N_of_ascii c in
  if (48 <=? n)%N && (n <=? 57)%N then Some (n - 48)%N
  else if (97 <=? n)%N && (n <=? 102)%N then Some (n - 87)%N
  else if (65 <=? n)%N && (n <=? 70)%N then Some (n - 55)%N
  else None.

(** [getu4]: the value of four hexadecimal digits. *)
Definition hex4 (a b c d : ascii) : option N :=
  match hex_digit a, hex_digit b, hex_digit c, hex_digit d with
  | Some x, Some y, Some z, Some w => Some (x * 4096 + y * 256 + z * 16 + w)%N
  | _, _, _, _ => None
  end.

Definition byte (n : N) : ascii := ascii_of_N n.

(** U+FFFD in UTF-8. *)
Definition replacement : string :=
  String (byte 239) (String (byte 191) (String (byte 189) EmptyString)).

(** [utf8.AppendRune]. *)
Definition encode_rune (r : N) : string :=
  if (r <? 128)%N then String (byte r) EmptyString
  else if (r <? 2048)%N then
    String (byte (192 + N.shiftr r 6))
      (String (byte (128 + N.land r 63)) EmptyString)
  else if ((55296 <=? r) && (r <=? 57343))%N || (1114111 <? r)%N then replacement
  else if (r <? 65536)%N then
    String (byte (224 + N.shiftr r 12))
      (String (byte (128 + N.land (N.shiftr r 6) 63))
         (String (byte (128 + N.land r 63)) EmptyString))
  else
    String (byte (240 + N.shiftr r 18))
      (String (byte (128 + N.land (N.shiftr r 12) 63))
         (String (byte (128 + N.land (N.shiftr r 6) 63))
            (String (byte (128 + N.land r 63)) EmptyString))).

(** The characters a backslash can stand before, [u] apart. *)
Definition simple_escape (e : ascii) : option ascii :=
  if eqc e dquote then Some dquote
  else if eqc e "\" then Some "\"%char
  else if eqc e "/" then Some "/"%char
  else if eqc e "b" then Some "008"%char
  else if eqc e "f" then Some "012"%char
  else if eqc e "n" then Some "010"%char
  else if eqc e "r" then Some "013"%char
  else if eqc e "t" then Some "009"%char
  else None.

Definition is_high_surrogate (r : N) : bool := (55296 <=? r)%N && (r <? 56320)%N.
Definition is_low_surrogate (r : N) : bool := (56320 <=? r)%N && (r <? 57344)%N.

Definition cons_to {A : Type} (p : string) (r : option (string * A))
  : option (string * A) :=
  match r with
  | Some (s, rest) => Some (p +:+ s, rest)
  | None => None
  end.

(** The inside of a string literal, from after the opening quote: the
    text it stands for (escapes decoded) and what follows the closing
    quote.  Control characters and unknown escapes are syntax errors. *)
Fixpoint scan_string (s : string) : option (string * string) :=
  match s with
  | EmptyString => None
  | String c rest =>
      if eqc c dquote then Some (EmptyString, rest)
      else if (N_of_ascii c <? 32)%N then None
      else if eqc c "\" then
        match rest with
        | String e rest1 =>
            match simple_escape e with
            | Some ch => cons_to (String ch EmptyString) (scan_string rest1)
            | None =>
                if eqc e "u" then
                  match rest1 with
                  | String h1 (String h2 (String h3 (String h4 rest2))) =>
                      match hex4 h1 h2 h3 h4 with
                      | None => None
                      | Some r =>
                          if is_high_surrogate r || is_low_surrogate r then
                            match rest2 with
                            | String b (String u (String l1 (String l2
                                (String l3 (String l4 rest3))))) =>
                                match (if eqc b "\" && eqc u "u"
                                       then hex4 l1 l2 l3 l4 else None) with
                                | Some r2 =>
                                    if is_high_surrogate r && is_low_surrogate r2
                                    then cons_to
                                           (encode_rune
                                              (65536 + (r - 55296) * 1024
                                               + (r2 - 56320))%N)
                                           (scan_string rest3)
                                    else cons_to replacement (scan_string rest2)
                                | None => cons_to replacement (scan_string rest2)
                                end
                            | _ => cons_to replacement (scan_string rest2)
                            end
                          else cons_to (encode_rune r) (scan_string rest2)
                      end
                  | _ => None
                  end
                else None
            end
        | EmptyString => None
        end
      else cons_to (String c EmptyString) (scan_string rest)
  end.

Definition between (lo hi : N) (c : ascii) : bool :=
  (lo <=? N_of_ascii c)%N && (N_of_ascii c <=? hi)%N.

(** For a leading byte of UTF-8: the length of its sequence and the range
    its second byte must lie in ([first] and [acceptRanges] of package
    [utf8]). *)
Definition lead (c : ascii) : option (nat * N * N) :=
  let n := N_of_ascii c in
  if (n <? 194)%N then None
  else if (n <? 224)%N then Some (2%nat, 128, 191)%N
  else if (n =? 224)%N then Some (3%nat, 160, 191)%N
  else if (n =? 237)%N then Some (3%nat, 128, 159)%N
  else if (n <? 240)%N then Some (3%nat, 128, 191)%N
  else if (n =? 240)%N then Some (4%nat, 144, 191)%N
  else if (n <? 244)%N then Some (4%nat, 128, 191)%N
  else if (n =? 244)%N then Some (4%nat, 128, 143)%N
  else None.

(** Well-formed UTF-8 is kept; each byte that starts no well-formed
    sequence becomes U+FFFD ([utf8.DecodeRune] then [utf8.AppendRune]). *)
Fixpoint coerce_utf8 (s : string) : string :=
  match s with
  | EmptyString => EmptyString
  | String b0 s1 =>
      if (N_of_ascii b0 <? 128)%N then String b0 (coerce_utf8 s1)
      else
        match lead b0, s1 with
        | Some (size, lo, hi), String b1 s2 =>
            if between lo hi b1 then
              match size, s2 with
              | 2, _ => String b0 (String b1 (coerce_utf8 s2))
              | 3, String b2 s3 =>
                  if between 128 191 b2
                  then String b0 (String b1 (String b2 (coerce_utf8 s3)))
                  else replacement +:+ coerce_utf8 s1
              | 4, String b2 (String b3 s4) =>
                  if between 128 191 b2 && between 128 191 b3
                  then String b0 (String b1 (String b2 (String b3 (coerce_utf8 s4))))
                  else replacement +:+ coerce_utf8 s1
              | _, _ => replacement +:+ coerce_utf8 s1
              end
            else replacement +:+ coerce_utf8 s1
        | _, _ => replacement +:+ coerce_utf8 s1
        end
  end.

(** A string literal from after its opening quote, unquoted. *)
Definition parse_string (s : string) : option (string * string) :=
  match scan_string s with
  | Some (text, rest) => Some (coerce_utf8 text, rest)
  | None => None
  end.

Fixpoint skip_digits (s : string) : string :=
  match s with
  | String c s' => if is_digit c then skip_digits s' else s
  | EmptyString => s
  end.

(** At least one digit, then what follows the digits. *)
Definition digits1 (s : string) : option string :=
  match s with
  | String c s' => if is_digit c then Some (skip_digits s') else None
  | EmptyString => None
  end.

(** A number: an optional minus sign; a zero, or a digit from 1 to 9 and
    any digits; optionally a point and digits; optionally [e] or [E], a
    sign and digits.  The result is what follows the number. *)
Definition scan_number (s : string) : option string :=
  let s1 := match s with
            | String c s' => if eqc c "-" then s' else s
            | EmptyString => s
            end in
  match s1 with
  | String c s2 =>
      if is_digit c then
        let s3 := if eqc c "0" then s2 else skip_digits s2 in
        match (match s3 with
               | String d s4 => if eqc d "." then digits1 s4 else Some s3
               | EmptyString => Some s3
               end) with
        | Some (String e s5) =>
            if eqc e "e" || eqc e "E" then
              match s5 with
              | String g s6 => if eqc g "+" || eqc g "-" then digits1 s6 else digits1 s5
              | EmptyString => None
              end
            else Some (String e s5)
        | other => other
        end
      else None
  | EmptyString => None
  end.

Definition maxNestingDepth : N := 10000.

(** One JSON value at the head of [s], leading white space passed over,
    and what follows it.  [depth] is the number of arrays and objects
    that are open; [fuel] bounds the recursion. *)
Fixpoint parse_value (fuel : nat) (depth : N) (s : string)
  : option (value * string) :=
  match fuel with
  | O => None
  | S fuel' =>
      match skip_space s with
      | EmptyString => None
      | String c rest =>
          if eqc c "{" then
            if (maxNestingDepth <=? depth)%N then None
            else
              match skip_space rest with
              | String d rest' =>
                  if eqc d "}" then Some (Object [], rest')
                  else match parse_members fuel' (depth + 1) (String d rest') with
                       | Some (ms, r) => Some (Object ms, r)
                       | None => None
                       end
              | EmptyString => None
              end
          else if eqc c "[" then
            if (maxNestingDepth <=? depth)%N then None
            else
              match skip_space rest with
              | String d rest' =>
                  if eqc d "]" then Some (Array [], rest')
                  else match parse_elements fuel' (depth + 1) (String d rest') with
                       | Some (vs, r) => Some (Array vs, r)
                       | None => None
                       end
              | EmptyString => None
              end
          else if eqc c dquote then
            match parse_string rest with
            | Some (text, r) => Some (Str text, r)
            | None => None
            end
          else if strings.HasPrefix (String c rest) "true"
          then Some (Bool true, strings.skip 4 (String c rest))
          else if strings.HasPrefix (String c rest) "false"
          then Some (Bool false, strings.skip 5 (String c rest))
          else if strings.HasPrefix (String c rest) "null"
          then Some (Null, strings.skip 4 (String c rest))
          else match scan_number (String c rest) with
               | Some r => Some (Number, r)
               | None => None
               end
      end
  end

(** The elements of an array from its first element to its closing
    bracket. *)
with parse_elements (fuel : nat) (depth : N) (s : string)
  : option (list value * string) :=
  match fuel with
  | O => None
  | S fuel' =>
      match parse_value fuel' depth s with
      | Some (v, rest) =>
          match skip_space rest with
          | String c rest' =>
              if eqc c "," then
                match parse_elements fuel' depth rest' with
                | Some (vs, r) => Some (v :: vs, r)
                | None => None
                end
              else if eqc c "]" then Some ([v], rest')
              else None
          | EmptyString => None
          end
      | None => None
      end
  end

(** The members of an object from the quote of its first key to its
    closing brace. *)
with parse_members (fuel : nat) (depth : N) (s : string)
  : option (list (string * value) * string) :=
  match fuel with
  | O => None
  | S fuel' =>
      match s with
      | String c0 s0 =>
          if eqc c0 dquote then
            match parse_string s0 with
            | Some (key, rest) =>
                match skip_space rest with
                | String c rest' =>
                    if eqc c ":" then
                      match parse_value fuel' depth rest' with
                      | Some (v, rest2) =>
                          match skip_space rest2 with
                          | String d rest3 =>
                              if eqc d "," then
                                match parse_members fuel' depth (skip_space rest3) with
                                | Some (ms, r) => Some ((key, v) :: ms, r)
                                | None => None
                                end
                              else if eqc d "}" then Some ([(key, v)], rest3)
                              else None
                          | EmptyString => None
                          end
                      | None => None
                      end
                    else None
                | EmptyString => None
                end
            | None => None
            end
          else None
      | EmptyString => None
      end
  end.

(** [checkValid] and the scan: the whole input is one value, with white
    space around it at most. *)
Definition parse (s : string) : option value :=
  match parse_value (2 * String.length s + 2) 0 s with
  | Some (v, rest) =>
      match skip_space rest with
      | EmptyString => Some v
      | String _ _ => None
      end
  | None => None
  end.

(** Folding of a key for the comparison with a field's tag: the letters
    of ASCII to upper case, and the two characters outside ASCII that
    fold to a letter of ASCII, U+212A (Kelvin sign) to K and U+017F
    (long s) to S.  Other characters fold among themselves. *)
Fixpoint fold_name (s : string) : string :=
  match s with
  | EmptyString => EmptyString
  | String c s1 =>
      let n := N_of_ascii c in
      if (97 <=? n)%N && (n <=? 122)%N then String (byte (n - 32)) (fold_name s1)
      else
        match s1 with
        | String c1 s2 =>
            if (n =? 197)%N && (N_of_ascii c1 =? 191)%N
            then String "S" (fold_name s2)
            else
              match s2 with
              | String c2 s3 =>
                  if (n =? 226)%N && (N_of_ascii c1 =? 132)%N
                     && (N_of_ascii c2 =? 170)%N
                  then String "K" (fold_name s3)
                  else String c (fold_name s1)
              | EmptyString => String c (fold_name s1)
              end
        | EmptyString => String c (fold_name s1)
        end
  end.

(** Whether [key] selects the field tagged [tag]. *)
Definition selects (key tag : string) : bool :=
  String.eqb key tag || String.eqb (fold_name key) (fold_name tag).

(** Into a [string]. *)
Definition to_string (v : value) (old : string) : option string :=
  match v with
  | Str s => Some s
  | Null => Some old
  | _ => None
  end.

(** Into the elements of a [[]string]. *)
Fixpoint to_strings (vs : list value) : option (list string) :=
  match vs with
  | [] => Some []
  | v :: vs' =>
      match to_string v EmptyString, to_strings vs' with
      | Some s, Some l => Some (s :: l)
      | _, _ => None
      end
  end.

(** Into a [[]string]. *)
Definition to_string_slice (v : value) : option (list string) :=
  match v with
  | Array vs => to_strings vs
  | Null => Some []
  | _ => None
  end.

(** The members of an object into an element of [CallFrames]. *)
Fixpoint frame_members (ms : list (string * value)) (f : CallFrame)
  : option CallFrame :=
  match ms with
  | [] => Some f
  | (key, v) :: ms' =>
      if selects key "functionName" then
        match to_string v (FunctionName f) with
        | Some s => frame_members ms' {| FunctionName := s |}
        | None => None
        end
      else frame_members ms' f
  end.

Definition to_frame (v : value) : option CallFrame :=
  match v with
  | Object ms => frame_members ms {| FunctionName := EmptyString |}
  | Null => Some {| FunctionName := EmptyString |}
  | _ => None
  end.

Fixpoint to_frames (vs : list value) : option (list CallFrame) :=
  match vs with
  | [] => Some []
  | v :: vs' =>
      match to_frame v, to_frames vs' with
      | Some f, Some l => Some (f :: l)
      | _, _ => None
      end
  end.

Definition to_frame_slice (v : value) : option (list CallFrame) :=
  match v with
  | Array vs => to_frames vs
  | Null => Some []
  | _ => None
  end.

(** The members of an object into a [DebuggerPausedParams]. *)
Fixpoint params_members (ms : list (string * value)) (p : DebuggerPausedParams)
  : option DebuggerPausedParams :=
  match ms with
  | [] => Some p
  | (key, v) :: ms' =>
      if selects key "reason" then
        match to_string v (Reason p) with
        | Some s =>
            params_members ms'
              {| Reason := s; HitBreakpoints := HitBreakpoints p;
                 CallFrames := CallFrames p |}
        | None => None
        end
      else if selects key "hitBreakpoints" then
        match to_string_slice v with
        | Some l =>
            params_members ms'
              {| Reason := Reason p; HitBreakpoints := l;
                 CallFrames := CallFrames p |}
        | None => None
        end
      else if selects key "callFrames" then
        match to_frame_slice v with
        | Some l =>
            params_members ms'
              {| Reason := Reason p; HitBreakpoints := HitBreakpoints p;
                 CallFrames := l |}
        | None => None
        end
      else params_members ms' p
  end.

Definition to_params (v : value) (old : DebuggerPausedParams)
  : option DebuggerPausedParams :=
  match v with
  | Object ms => params_members ms old
  | Null => Some old
  | _ => None
  end.

(** The members of an object into a [DebuggerPaused]. *)
Fixpoint paused_members (ms : list (string * value)) (d : DebuggerPaused)
  : option DebuggerPaused :=
  match ms with
  | [] => Some d
  | (key, v) :: ms' =>
      if selects key "method" then
        match to_string v (Method d) with
        | Some s => paused_members ms' {| Method := s; Params := Params d |}
        | None => None
        end
      else if selects key "params" then
        match to_params v (Params d) with
        | Some p => paused_members ms' {| Method := Method d; Params := p |}
        | None => None
        end
      else paused_members ms' d
  end.

(** The zero value of [DebuggerPaused]: [var cdp_res DebuggerPaused]. *)
Definition zero : DebuggerPaused :=
  {| Method := EmptyString;
     Params := {| Reason := EmptyString; HitBreakpoints := [];
                  CallFrames := [] |} |}.

(** [json.Unmarshal(msg, &cdp_res)] with [cdp_res] the zero value. *)
Definition Unmarshal (msg : string) : option DebuggerPaused :=
  match parse msg with
  | Some (Object ms) => paused_members ms zero
  | Some Null => Some zero
  | Some _ => None
  | None => None
  end.

End Json.

(** The spec's end-to-end frames, as the page side sends them. *)
Definition trap_frame : string :=
  Eval cbv in q "{'method':'Debugger.paused','params':{'reason':'other','hitBreakpoints':[],'callFrames':[{'functionName':'trap_xyz'}]}}".

Definition sentinel_frame : string :=
  Eval cbv in q "{'method':'Debugger.paused','params':{'reason':'other','hitBreakpoints':[],'callFrames':[{'functionName':'lovedebug'},{'functionName':'userCode'}]}}".

Definition breakpoint_frame : string :=
  Eval cbv in q "{'method':'Debugger.paused','params':{'reason':'other','hitBreakpoints':['bp1'],'callFrames':[{'functionName':'foo'}]}}".

(** ** The acceptor and the registry *)

(** A [*MyWSConnection]: the place of the connection in the heap. *)
Definition ptr : Type := nat.

(** [type DevtoolsToWebConnection struct]. *)
Record DevtoolsToWebConnection : Type := mkpair {
  Devtools : ptr;
  Web : ptr;
}.

(** The tasks started with [go] that have not returned. *)
Inductive task : Type :=
| (** [go start_transmiter_task(devtools, path)], before it dials. *)
  task_start (devtools : ptr) (path : string)
| (** [start_transmiter_task] in [wg.Wait()]: both [start] tasks and both
      [transimiter] tasks of the session are running. *)
  task_session (devtools web : ptr) (path : string).

(** The state of the process: the global [CONNECTION_POOL]
    ([map[string]*DevtoolsToWebConnection], empty at start), the
    connections allocated so far and the running tasks. *)
Record World : Type := mkworld {
  CONNECTION_POOL : gmap string DevtoolsToWebConnection;
  heap : list MyWSConnection;
  tasks : list task;
}.

(** [var CONNECTION_POOL = make(ConnectionPool)], nothing else running. *)
Definition init_world : World :=
  {| CONNECTION_POOL := ∅; heap := []; tasks := [] |}.

(** [p.Close()] on the connection that [p] points to. *)
Definition heap_Close (h : list MyWSConnection) (p : ptr)
  : Outcome (list MyWSConnection) :=
  match h !! p with
  | Some c => c' ← Close c; Ok (<[p := c']> h)
  | None => Panic "invalid memory address or nil pointer dereference"
  end.

Definition task_eqb (a b : task) : bool :=
  match a, b with
  | task_start d p, task_start d' p' => Nat.eqb d d' && String.eqb p p'
  | task_session d w p, task_session d' w' p' =>
      Nat.eqb d d' && Nat.eqb w w' && String.eqb p p'
  | _, _ => false
  end.

(** The running tasks without [t], which has returned. *)
Definition remove_task (t : task) (l : list task) : list task :=
  List.filter (fun t' => negb (task_eqb t t')) l.

(** [websocket_handler] for a request on [path]; [upgrade] is the error of
    [upgrader.Upgrade], [None] when the handshake succeeds. *)
Definition websocket_handler (w : World) (path : string) (upgrade : option string)
  : Outcome World :=
  match CONNECTION_POOL w !! path with
  | Some _ => Ok w
  | None =>
      match upgrade with
      | Some err => Fatal ("upgrade websocket failed: " +:+ err)
      | None =>
          let devtools := length (heap w) in
          Ok {| CONNECTION_POOL := CONNECTION_POOL w;
                heap := heap w ++ [NewMyWSConnection "devtools"];
                tasks := tasks w ++ [task_start devtools path] |}
      end
  end.

(** [start_transmiter_task] up to [wg.Wait()]; [dial] is the error of
    [websocket.DefaultDialer.Dial], [None] when the page side answers.
    When the dial fails the function returns and its deferred
    [devtools.Close()] runs. *)
Definition start_transmiter_task_begin (w : World) (devtools : ptr)
    (path : string) (dial : option string) : Outcome World :=
  match dial with
  | Some _ =>
      h ← heap_Close (heap w) devtools;
      Ok {| CONNECTION_POOL := CONNECTION_POOL w;
            heap := h;
            tasks := remove_task (task_start devtools path) (tasks w) |}
  | None =>
      let web := length (heap w) in
      Ok {| CONNECTION_POOL := CONNECTION_POOL w;
            heap := heap w ++ [NewMyWSConnection "web"];
            tasks := remove_task (task_start devtools path) (tasks w)
                     ++ [task_session devtools web path] |}
  end.

(** [start_transmiter_task] from the return of [wg.Wait()]:
    [delete(CONNECTION_POOL, path)], then the deferred [web.Close()] and
    [devtools.Close()]. *)
Definition start_transmiter_task_end (w : World) (devtools web : ptr)
    (path : string) : Outcome World :=
  let pool := delete path (CONNECTION_POOL w) in
  h ← heap_Close (heap w) web;
  h ← heap_Close h devtools;
  Ok {| CONNECTION_POOL := pool;
        heap := h;
        tasks := remove_task (task_session devtools web path) (tasks w) |}.

(** What the tasks of a connection can do to it, one atomic step at a
    time: the halves of [WriteMessage] and [ReadMessage] that touch the
    channels, [Close], and the turns of the two tasks of [start]. *)
Inductive conn_step (c : MyWSConnection) : MyWSConnection -> Prop :=
| step_WriteMessage msg err c' :
    WriteMessage_send c msg = Ok (err, c') -> conn_step c c'
| step_ReadMessage msg err c' :
    ReadMessage_recv c = Ok (msg, err, c') -> conn_step c c'
| step_Close c' :
    Close c = Ok c' -> conn_step c c'
| step_reader read go_on c' :
    start_reader_turn c read = Ok (go_on, c') -> conn_step c c'
| step_writer write_err go_on c' :
    start_writer_turn c write_err = Ok (go_on, c') -> conn_step c c'.

(** The states a connection made by [NewMyWSConnection] can get to. *)
Inductive conn_reachable (name : string) : MyWSConnection -> Prop :=
| reach_new : conn_reachable name (NewMyWSConnection name)
| reach_step c c' :
    conn_reachable name c -> conn_step c c' -> conn_reachable name c'.

(** The steps of the process: a request arrives, a started task dials, a
    session whose loops have ended is torn down, or a task of a live
    connection moves. *)
Inductive world_step (w : World) : World -> Prop :=
| step_request path upgrade w' :
    websocket_handler w path upgrade = Ok w' -> world_step w w'
| step_begin devtools path dial w' :
    In (task_start devtools path) (tasks w) ->
    start_transmiter_task_begin w devtools path dial = Ok w' ->
    world_step w w'
| step_end devtools web path w' :
    In (task_session devtools web path) (tasks w) ->
    start_transmiter_task_end w devtools web path = Ok w' ->
    world_step w w'
| step_conn p c c' :
    heap w !! p = Some c -> conn_step c c' ->
    world_step w {| CONNECTION_POOL := CONNECTION_POOL w;
                    heap := <[p := c']> (heap w);
                    tasks := tasks w |}.

Inductive world_reachable : World -> Prop :=
| reach_init : world_reachable init_world
| reach_world_step w w' :
    world_reachable w -> world_step w w' -> world_reachable w'.

(** The sessions of [path] that are live in [w]. *)
Definition live_sessions (w : World) (path : string) : list task :=
  List.filter
    (fun t => match t with
              | task_session _ _ p => String.eqb p path
              | task_start _ _ => false
              end)
    (tasks w).

(** * The vocabulary of the properties *)

(** The leftmost instance of [old] in [s] stands between [pre] and
    [post]. *)
Definition first_instance (s old pre post : string) : Prop :=
  s = pre +:+ old +:+ post /\
  forall pre' post', s = pre' +:+ old +:+ post' ->
                     String.length pre <= String.length pre'.

(** The flag and the two channels are closed together: the invariant that
    the mutex of the connection keeps. *)
Definition conn_inv (c : MyWSConnection) : Prop :=
  closed (msg_sender c) = is_closed c /\ closed (msg_reciver c) = is_closed c.

(** The steps a connection takes from one state to a later one. *)
Inductive conn_steps (c : MyWSConnection) : MyWSConnection -> Prop :=
| steps_none : conn_steps c c
| steps_more c1 c2 : conn_steps c c1 -> conn_step c1 c2 -> conn_steps c c2.

(** [Close] called [n] times in a row. *)
Fixpoint Close_times (n : nat) (c : MyWSConnection) : Outcome MyWSConnection :=
  match n with
  | O => Ok c
  | S n' => c' ← Close c; Close_times n' c'
  end.

(** A connection is shut when its flag is set and its socket closed. *)
Definition shut (c : MyWSConnection) : Prop :=
  is_closed c = true /\ conn_closed c = true.

(** [c] after the one message [t] was put on its outbound channel, nothing
    else of it changed. *)
Definition enqueued (c : MyWSConnection) (t : string) : MyWSConnection :=
  {| Name := Name c;
     conn_closed := conn_closed c;
     msg_sender := {| buf := buf (msg_sender c) ++ [t];
                      closed := closed (msg_sender c) |};
     msg_reciver := msg_reciver c;
     is_closed := is_closed c |}.

(** The outbound channel has a free slot. *)
Definition has_room (c : MyWSConnection) : Prop :=
  (Z.of_nat (length (buf (msg_sender c))) < buffer_size)%Z.

Definition web_info : ConnectionInfo := {| cid := "/p/1"; des := "web -> devtools" |}.
Definition devtools_info : ConnectionInfo := {| cid := "/p/1"; des := "devtools -> web" |}.

(** The page-side connection after [Close]. *)
Definition closed_web : MyWSConnection :=
  {| Name := "web"; conn_closed := true;
     msg_sender := {| buf := []; closed := true |};
     msg_reciver := {| buf := []; closed := true |};
     is_closed := true |}.

(** What [trap_frame] and [sentinel_frame] decode to. *)
Definition trap_paused : DebuggerPaused :=
  {| Method := "Debugger.paused";
     Params := {| Reason := "other"; HitBreakpoints := [];
                  CallFrames := [{| FunctionName := "trap_xyz" |}] |} |}.

Definition sentinel_paused : DebuggerPaused :=
  {| Method := "Debugger.paused";
     Params := {| Reason := "other"; HitBreakpoints := [];
                  CallFrames := [{| FunctionName := "lovedebug" |};
                                 {| FunctionName := "userCode" |}] |} |}.

(** [trap_frame] and [sentinel_frame] with an [id] member of value 0 in
    front. *)
Definition trap_frame_id_zero : string :=
  Eval cbv in q "{'id':0,'method':'Debugger.paused','params':{'reason':'other','hitBreakpoints':[],'callFrames':[{'functionName':'trap_xyz'}]}}".

Definition sentinel_frame_id_zero : string :=
  Eval cbv in q "{'id':0,'method':'Debugger.paused','params':{'reason':'other','hitBreakpoints':[],'callFrames':[{'functionName':'lovedebug'},{'functionName':'userCode'}]}}".

(** A pause with no call frame. *)
Definition no_frames_frame : string :=
  Eval cbv in q "{'method':'Debugger.paused','params':{'reason':'other','hitBreakpoints':[],'callFrames':[]}}".

(** The answer of the page to a command with [id] 0. *)
Definition echo_frame : string := Eval cbv in q "{'id':0,'result':{}}".

(** An event, not an answer, that has an [id] member of value 0 inside. *)
Definition event_with_id_zero : string :=
  Eval cbv in q "{'method':'Runtime.bindingCalled','params':{'name':'cb','payload':{'id':0}}}".

(** C2 as it is stated: whenever the message is read as such a pause, the
    handler drops it and its one effect is the resume command on the
    outbound channel of the source. *)
Definition trap_resume_as_stated (MYDEBUGGER_NAME : string)
    (_from : MyWSConnection) (cinfo : ConnectionInfo) (msg : string) : Prop :=
  forall cdp_res frame0 frames,
    Json.Unmarshal msg = Some cdp_res ->
    Method cdp_res = "Debugger.paused" ->
    Reason (Params cdp_res) = "other" ->
    HitBreakpoints (Params cdp_res) = [] ->
    CallFrames (Params cdp_res) = frame0 :: frames ->
    FunctionName frame0 <> MYDEBUGGER_NAME ->
    handle_msg_from_web MYDEBUGGER_NAME Json.Unmarshal _from cinfo msg
    = Ok (EmptyString, false, enqueued _from resume_command).

(** C3 as it is stated. *)
Definition sentinel_step_out_as_stated (MYDEBUGGER_NAME : string)
    (_from : MyWSConnection) (cinfo : ConnectionInfo) (msg : string) : Prop :=
  forall cdp_res frame0 frames,
    Json.Unmarshal msg = Some cdp_res ->
    Method cdp_res = "Debugger.paused" ->
    Reason (Params cdp_res) = "other" ->
    HitBreakpoints (Params cdp_res) = [] ->
    CallFrames (Params cdp_res) = frame0 :: frames ->
    FunctionName frame0 = MYDEBUGGER_NAME ->
    handle_msg_from_web MYDEBUGGER_NAME Json.Unmarshal _from cinfo msg
    = Ok (EmptyString, false, enqueued _from stepOut_command).

(** A frame of DevTools that sets the overlay message, with the text of
    the message a second time further on. *)
Definition overlay_frame : string :=
  Eval cbv in q "{'id':7,'method':'Overlay.setPausedInDebuggerMessage','params':{'message':'Paused in debugger','note':'Paused in debugger'}}".

Definition overlay_frame_rewritten : string :=
  Eval cbv in q "{'id':7,'method':'Overlay.setPausedInDebuggerMessage','params':{'message':'Paused in debugger - Surprise From 52pj','note':'Paused in debugger'}}".

(** The process with one session live on [/p/1]. *)
Definition one_session : World :=
  {| CONNECTION_POOL := ∅;
     heap := [NewMyWSConnection "devtools"; NewMyWSConnection "web"];
     tasks := [task_session 0 1 "/p/1"] |}.

(** ** More of the program: the loop over several turns, the tasks of a
    connection over several frames, and the states of the process *)

(** The loop of [transimiter] for at most [n] turns, when no other task
    touches the two connections meanwhile: the turns go on until one
    returns [false], the point at which the function leaves its loop. *)
Fixpoint transimiter_turns (n : nat) (handler : option TransimiterHandler)
    (_from _to : MyWSConnection) (cinfo : ConnectionInfo)
  : Outcome (bool * MyWSConnection * MyWSConnection) :=
  match n with
  | O => Ok (true, _from, _to)
  | S n' =>
      '(go_on, from1, to1) ← transimiter_turn handler _from _to cinfo;
      if go_on : bool then transimiter_turns n' handler from1 to1 cinfo
      else Ok (false, from1, to1)
  end.

(** The reader task of [start] over the frames [msgs] that the socket
    gives one after the other: it stops at the first turn that returns. *)
Fixpoint start_reader_turns (c : MyWSConnection) (msgs : list string)
  : Outcome (bool * MyWSConnection) :=
  match msgs with
  | [] => Ok (true, c)
  | msg :: msgs' =>
      '(go_on, c1) ← start_reader_turn c (inl msg);
      if go_on : bool then start_reader_turns c1 msgs' else Ok (false, c1)
  end.

(** [ReadMessage] called [n] times in a row, each call without error: the
    messages read, oldest first.  A call that returns an error ends the
    run with what was read before it. *)
Fixpoint ReadMessages (n : nat) (c : MyWSConnection)
  : Outcome (list string * option string * MyWSConnection) :=
  match n with
  | O => Ok ([], None, c)
  | S n' =>
      '(msg, err, c1) ← ReadMessage c;
      match err with
      | Some e => Ok ([], Some e, c1)
      | None =>
          '(msgs, err', c2) ← ReadMessages n' c1;
          Ok (msg :: msgs, err', c2)
      end
  end.

(** What [handle_msg_from_devtools] makes of a message. *)
Definition devtools_rewrite (msg : string) : string :=
  if strings.Contains msg "Overlay.setPausedInDebuggerMessage"
  then strings.Replace msg "Paused in debugger"
         ("Paused in debugger - Surprise " +:+ Author) 1
  else msg.

(** [c] with [k] messages taken off the front of its inbound channel,
    nothing else of it changed. *)
Definition dequeued (c : MyWSConnection) (k : nat) : MyWSConnection :=
  {| Name := Name c;
     conn_closed := conn_closed c;
     msg_sender := msg_sender c;
     msg_reciver := {| buf := drop k (buf (msg_reciver c));
                       closed := closed (msg_reciver c) |};
     is_closed := is_closed c |}.

(** [c] after the messages [ts] were put on its outbound channel, in that
    order. *)
Definition enqueued_all (c : MyWSConnection) (ts : list string) : MyWSConnection :=
  {| Name := Name c;
     conn_closed := conn_closed c;
     msg_sender := {| buf := buf (msg_sender c) ++ ts;
                      closed := closed (msg_sender c) |};
     msg_reciver := msg_reciver c;
     is_closed := is_closed c |}.

(** [c] after the messages [ms] were put on its inbound channel. *)
Definition received_all (c : MyWSConnection) (ms : list string) : MyWSConnection :=
  {| Name := Name c;
     conn_closed := conn_closed c;
     msg_sender := msg_sender c;
     msg_reciver := {| buf := buf (msg_reciver c) ++ ms;
                       closed := closed (msg_reciver c) |};
     is_closed := is_closed c |}.

(** Both channels of a closed connection are closed. *)
Definition channels_closed (c : MyWSConnection) : Prop :=
  closed (msg_sender c) = true /\ closed (msg_reciver c) = true.

(** The pointers of a task point into the heap, and the two connections
    of a session are two. *)
Definition task_ok (h : list MyWSConnection) (t : task) : Prop :=
  match t with
  | task_start devtools _ => devtools < length h
  | task_session devtools web _ =>
      devtools < length h /\ web < length h /\ devtools <> web
  end.

(** The invariant of the process: every connection keeps [conn_inv] and
    every running task holds pointers into the heap. *)
Definition world_inv (w : World) : Prop :=
  Forall conn_inv (heap w) /\ Forall (task_ok (heap w)) (tasks w).

(** A connection with three frames of the page waiting on its inbound
    channel: a pause on a breakpoint, an answer to a command of the proxy,
    and a trap. *)
Definition web_with_three : MyWSConnection :=
  received_all (NewMyWSConnection "web") [breakpoint_frame; echo_frame; trap_frame].

(** A connection with two frames of DevTools waiting. *)
Definition devtools_with_two : MyWSConnection :=
  received_all (NewMyWSConnection "devtools") [overlay_frame; echo_frame].

(** The process with one task started on [/p/1] that has not dialled. *)
Definition one_started : World :=
  {| CONNECTION_POOL := ∅;
     heap := [NewMyWSConnection "devtools"];
     tasks := [task_start 0 "/p/1"] |}.

(** The process with sessions live on [/p/1] and on [/p/2]. *)
Definition two_sessions : World :=
  {| CONNECTION_POOL := ∅;
     heap := [NewMyWSConnection "devtools"; NewMyWSConnection "web";
              NewMyWSConnection "devtools"; NewMyWSConnection "web"];
     tasks := [task_session 0 1 "/p/1"; task_session 2 3 "/p/2"] |}.

(** * Properties *)

(** ** Text *)

Module strings_facts.
Import strings.

Lemma append_assoc (a b c : string) : (a +:+ b) +:+ c = a +:+ (b +:+ c).
Proof. induction a as [|x a IH]; simpl; [reflexivity | now rewrite IH]. Qed.

Lemma append_empty_r (a : string) : a +:+ EmptyString = a.
Proof. induction a as [|x a IH]; simpl; [reflexivity | now rewrite IH]. Qed.

Lemma length_append (a b : string) :
  String.length (a +:+ b) = String.length a + String.length b.
Proof. induction a as [|x a IH]; simpl; [reflexivity | now rewrite IH]. Qed.

(** [HasPrefix] is the prefix relation. *)
Lemma HasPrefix_iff (s p : string) :
  HasPrefix s p = true <-> exists r, s = p +:+ r.
Proof.
  revert s. induction p as [|x p IH]; intros s; simpl.
  - split; [intros _; now exists s | reflexivity].
  - destruct s as [|c s]; simpl.
    + split; [discriminate | intros [r Hr]; discriminate].
    + rewrite andb_true_iff, IH. split.
      * intros [Hc [r ->]]. apply Ascii.eqb_eq in Hc. subst. now exists r.
      * intros [r Hr]. injection Hr as -> ->. split.
        -- apply Ascii.eqb_refl.
        -- now exists r.
Qed.

Lemma HasPrefix_append (p r : string) : HasPrefix (p +:+ r) p = true.
Proof. apply HasPrefix_iff. now exists r. Qed.

Lemma skip_append (p r : string) : skip (String.length p) (p +:+ r) = r.
Proof. induction p as [|x p IH]; simpl; [reflexivity | exact IH]. Qed.

(** A string is the characters before an offset, then the rest. *)
Lemma split_at (i : nat) (s : string) :
  i <= String.length s ->
  exists p, s = p +:+ skip i s /\ String.length p = i.
Proof.
  revert s. induction i as [|i IH]; intros s Hi.
  - exists EmptyString. split; reflexivity.
  - destruct s as [|c s]; simpl in Hi; [lia |].
    destruct (IH s) as [p [Hp Hl]]; [lia |].
    exists (String c p). simpl. split; [now rewrite <- Hp | now rewrite Hl].
Qed.

(** [Index] gives an offset at which the text stands. *)
Lemma Index_Some (s sub : string) (i : nat) :
  Index s sub = Some i ->
  exists pre post, s = pre +:+ sub +:+ post /\ String.length pre = i.
Proof.
  revert i. induction s as [|c s IH]; intros i; simpl.
  - destruct (HasPrefix EmptyString sub) eqn:Hp; [|discriminate].
    intros [= <-]. apply HasPrefix_iff in Hp as [r Hr].
    exists EmptyString, r. split; [exact Hr | reflexivity].
  - destruct (HasPrefix (String c s) sub) eqn:Hp.
    + intros [= <-]. apply HasPrefix_iff in Hp as [r Hr].
      exists EmptyString, r. split; [exact Hr | reflexivity].
    + destruct (Index s sub) as [j|] eqn:Hj; simpl; [|discriminate].
      intros [= <-]. destruct (IH j eq_refl) as [pre [post [Hs Hl]]].
      exists (String c pre), post. simpl. split; [now rewrite <- Hs | now rewrite Hl].
Qed.

(** [Index] finds the text wherever it stands. *)
Lemma Index_None (s sub : string) :
  Index s sub = None -> forall pre post, s <> pre +:+ sub +:+ post.
Proof.
  induction s as [|c s IH]; simpl.
  - destruct (HasPrefix EmptyString sub) eqn:Hp; [discriminate |].
    intros _ pre post Hs. destruct pre; simpl in Hs.
    + rewrite Hs, HasPrefix_append in Hp. discriminate.
    + discriminate.
  - destruct (HasPrefix (String c s) sub) eqn:Hp; [discriminate |].
    destruct (Index s sub) eqn:Hj; simpl; [discriminate |].
    intros _ pre post Hs. destruct pre as [|x pre]; simpl in Hs.
    + rewrite Hs, HasPrefix_append in Hp. discriminate.
    + injection Hs as _ Hs. exact (IH eq_refl pre post Hs).
Qed.

(** [Contains] is the substring relation. *)
Lemma Contains_iff (s sub : string) :
  Contains s sub = true <-> exists pre post, s = pre +:+ sub +:+ post.
Proof.
  unfold Contains. destruct (Index s sub) as [i|] eqn:Hi.
  - split; [intros _ | reflexivity].
    destruct (Index_Some _ _ _ Hi) as [pre [post [Hs _]]]. now exists pre, post.
  - split; [discriminate |]. intros [pre [post Hs]].
    exfalso. exact (Index_None _ _ Hi pre post Hs).
Qed.

Lemma replace_loop_done (old new : string) (s : string) (k : nat) :
  replace_loop s old new 0 k = skip k s.
Proof.
  revert k. induction s as [|c s IH]; intros [|k]; simpl; auto.
Qed.

Lemma first_instance_head (a : ascii) (s old pre post : string) :
  first_instance (String a s) old (String a pre) post ->
  first_instance s old pre post /\ HasPrefix (String a s) old = false.
Proof.
  intros [Hs Hmin]. simpl in Hs. injection Hs as Hs. split; [split; [exact Hs |] |].
  - intros pre' post' Hs'.
    specialize (Hmin (String a pre') post'). simpl in Hmin.
    rewrite <- Hs' in Hmin. specialize (Hmin eq_refl). lia.
  - destruct (HasPrefix (String a s) old) eqn:Hp; [|reflexivity].
    apply HasPrefix_iff in Hp as [r Hr].
    specialize (Hmin EmptyString r Hr). simpl in Hmin. lia.
Qed.

(** One replacement rewrites the leftmost instance and nothing else. *)
Lemma replace_loop_first (old new : string) :
  old <> EmptyString ->
  forall pre s post,
    first_instance s old pre post ->
    replace_loop s old new 1 0 = pre +:+ new +:+ post.
Proof.
  intros Hold. induction pre as [|a pre IH]; intros s post Hf.
  - destruct Hf as [Hs _]. simpl in Hs. subst s.
    destruct old as [|o old]; [congruence |]. simpl.
    rewrite Ascii.eqb_refl, HasPrefix_append. simpl.
    rewrite replace_loop_done, Nat.sub_0_r, skip_append. reflexivity.
  - pose proof Hf as [Hs _]. simpl in Hs. destruct s as [|c s]; [discriminate |].
    injection Hs as -> Hs.
    apply first_instance_head in Hf as [Hf Hp].
    cbn [replace_loop]. rewrite Hp. simpl. now rewrite (IH s post Hf).
Qed.

(** Without an instance of [old] nothing is rewritten. *)
Lemma replace_loop_none (old new : string) (n : nat) :
  forall s, Contains s old = false -> replace_loop s old new n 0 = s.
Proof.
  induction s as [|c s IH]; intros Hc; [reflexivity |].
  unfold Contains in Hc. simpl in Hc.
  destruct (HasPrefix (String c s) old) eqn:Hp; [discriminate |].
  destruct n as [|n]; [reflexivity |]. cbn [replace_loop]. rewrite Hp.
  rewrite IH; [reflexivity |]. unfold Contains.
  destruct (Index s old); [discriminate | reflexivity].
Qed.

(** The leftmost instance is where no earlier offset has one; this is
    how a concrete instance is checked. *)
Lemma first_instance_check (old post : string) :
  forall pre,
    (forall i, i < String.length pre ->
               HasPrefix (skip i (pre +:+ old +:+ post)) old = false) ->
    first_instance (pre +:+ old +:+ post) old pre post.
Proof.
  intros pre Hno. split; [reflexivity |].
  intros pre' post' Hs.
  destruct (Nat.le_gt_cases (String.length pre) (String.length pre')) as [|Hlt];
    [assumption | exfalso].
  specialize (Hno _ Hlt). rewrite Hs, skip_append, HasPrefix_append in Hno.
  discriminate.
Qed.

End strings_facts.

(** ** Connections *)

(** Unfold the methods of a connection and split on what they test. *)
Ltac conn_unfold :=
  unfold start_reader_turn, start_writer_turn, WriteMessage, WriteMessage_send,
    ReadMessage, ReadMessage_recv, Close, is_Closed, chan_send, chan_recv,
    chan_close, mbind, Outcome_bind in *.

Ltac conn_cases := repeat case_match; simplify_eq/=.

Lemma NewMyWSConnection_inv (name : string) : conn_inv (NewMyWSConnection name).
Proof. split; reflexivity. Qed.

(** [Close] returns on every state that satisfies the invariant. *)
Lemma Close_returns (c : MyWSConnection) :
  conn_inv c ->
  exists c', Close c = Ok c' /\ conn_inv c' /\ is_closed c' = true
             /\ closed (msg_sender c') = true /\ closed (msg_reciver c') = true
             /\ conn_closed c' = true.
Proof.
  intros [Hs Hr]. unfold Close, chan_close, mbind, Outcome_bind.
  destruct (is_closed c) eqn:Hc; simpl.
  - eexists. split; [reflexivity |]. unfold conn_inv. simpl. auto 10.
  - rewrite Hs, Hr. simpl. eexists. split; [reflexivity |].
    unfold conn_inv. simpl. auto 10.
Qed.

Lemma Close_keeps_inv (c c' : MyWSConnection) :
  conn_inv c -> Close c = Ok c' -> conn_inv c'.
Proof.
  intros Hi Hc. destruct (Close_returns c Hi) as [c1 [H1 [Hi1 _]]]. congruence.
Qed.

Lemma conn_step_inv (c c' : MyWSConnection) :
  conn_inv c -> conn_step c c' -> conn_inv c'.
Proof.
  intros Hi Hstep.
  destruct Hstep as [msg err c' H | msg err c' H | c' H | read go_on c' H
                    | write_err go_on c' H].
  - destruct Hi as [Hs Hr]. conn_unfold. conn_cases. split; simpl; congruence.
  - destruct Hi as [Hs Hr]. conn_unfold. conn_cases; split; simpl; congruence.
  - exact (Close_keeps_inv c c' Hi H).
  - unfold start_reader_turn in H. destruct read as [msg | e].
    + destruct (is_Closed c) eqn:Hc.
      * destruct (Close c) as [c1| | |] eqn:Hcl; try discriminate H.
        injection H as _ <-. exact (Close_keeps_inv c c1 Hi Hcl).
      * destruct Hi as [Hs Hr]. conn_unfold. conn_cases. split; simpl; congruence.
    + destruct (Close c) as [c1| | |] eqn:Hcl; try discriminate H.
      injection H as _ <-. exact (Close_keeps_inv c c1 Hi Hcl).
  - unfold start_writer_turn in H.
    destruct (buf (msg_sender c)) as [|m rest] eqn:Hb.
    + destruct (closed (msg_sender c)); [|discriminate H].
      destruct (Close c) as [c1| | |] eqn:Hcl; try discriminate H.
      injection H as _ <-. exact (Close_keeps_inv c c1 Hi Hcl).
    + set (c1 := {| Name := Name c; conn_closed := conn_closed c;
                   msg_sender := {| buf := rest; closed := closed (msg_sender c) |};
                   msg_reciver := msg_reciver c; is_closed := is_closed c |}) in *.
      assert (Hi1 : conn_inv c1) by (destruct Hi; split; simpl; assumption).
      destruct (is_Closed c1).
      * destruct (Close c1) as [c2| | |] eqn:Hcl; try discriminate H.
        injection H as _ <-. exact (Close_keeps_inv c1 c2 Hi1 Hcl).
      * destruct write_err.
        -- destruct (Close c1) as [c2| | |] eqn:Hcl; try discriminate H.
           injection H as _ <-. exact (Close_keeps_inv c1 c2 Hi1 Hcl).
        -- injection H as _ <-. exact Hi1.
Qed.

Lemma conn_reachable_inv (name : string) (c : MyWSConnection) :
  conn_reachable name c -> conn_inv c.
Proof.
  induction 1 as [|c c' _ IH Hstep].
  - apply NewMyWSConnection_inv.
  - exact (conn_step_inv c c' IH Hstep).
Qed.

Lemma Close_sets_flag (c c' : MyWSConnection) :
  Close c = Ok c' -> is_closed c' = true.
Proof.
  intros H. conn_unfold. conn_cases; [reflexivity |].
  now destruct (is_closed c).
Qed.

(** No step of any task clears the flag. *)
Lemma conn_step_flag (c c' : MyWSConnection) :
  is_closed c = true -> conn_step c c' -> is_closed c' = true.
Proof.
  intros Hc Hstep.
  destruct Hstep as [msg err c' H | msg err c' H | c' H | read go_on c' H
                    | write_err go_on c' H].
  - conn_unfold. conn_cases. exact Hc.
  - conn_unfold. conn_cases; exact Hc.
  - exact (Close_sets_flag c c' H).
  - unfold start_reader_turn in H. destruct read as [msg | e].
    + destruct (is_Closed c) eqn:Hc'.
      * destruct (Close c) as [c1| | |] eqn:Hcl; try discriminate H.
        injection H as _ <-. exact (Close_sets_flag c c1 Hcl).
      * unfold is_Closed in Hc'. congruence.
    + destruct (Close c) as [c1| | |] eqn:Hcl; try discriminate H.
      injection H as _ <-. exact (Close_sets_flag c c1 Hcl).
  - unfold start_writer_turn in H.
    destruct (buf (msg_sender c)) as [|m rest] eqn:Hb.
    + destruct (closed (msg_sender c)); [|discriminate H].
      destruct (Close c) as [c1| | |] eqn:Hcl; try discriminate H.
      injection H as _ <-. exact (Close_sets_flag c c1 Hcl).
    + unfold is_Closed in H. simpl in H. rewrite Hc in H.
      match type of H with
      | context [Close ?x] => destruct (Close x) as [c2| | |] eqn:Hcl
      end; try discriminate H.
      injection H as _ <-. exact (Close_sets_flag _ c2 Hcl).
Qed.

Lemma conn_steps_flag (c c' : MyWSConnection) :
  is_closed c = true -> conn_steps c c' -> is_closed c' = true.
Proof.
  intros Hc. induction 1 as [|c1 c2 _ IH Hstep]; [exact Hc |].
  exact (conn_step_flag c1 c2 IH Hstep).
Qed.

Lemma conn_steps_inv (c c' : MyWSConnection) :
  conn_inv c -> conn_steps c c' -> conn_inv c'.
Proof.
  intros Hc. induction 1 as [|c1 c2 _ IH Hstep]; [exact Hc |].
  exact (conn_step_inv c1 c2 IH Hstep).
Qed.

(** On a closed connection [Close] changes nothing and touches no
    channel. *)
Lemma Close_again (c : MyWSConnection) :
  is_closed c = true -> conn_closed c = true -> Close c = Ok c.
Proof.
  intros Hc Hs. unfold Close. rewrite Hc. simpl. destruct c; simpl in *.
  now subst.
Qed.

Lemma Close_times_again (n : nat) (c : MyWSConnection) :
  is_closed c = true -> conn_closed c = true -> Close_times n c = Ok c.
Proof.
  intros Hc Hs. induction n as [|n IH]; [reflexivity |].
  simpl. rewrite (Close_again c Hc Hs). exact IH.
Qed.

Lemma Close_shut (c c' : MyWSConnection) : Close c = Ok c' -> shut c'.
Proof.
  intros H. split; [exact (Close_sets_flag c c' H) |].
  conn_unfold. conn_cases; reflexivity.
Qed.

(** A step that does not end in [Close] leaves the flag and the socket as
    they are. *)
Lemma conn_step_flags (c c' : MyWSConnection) :
  conn_step c c' ->
  (is_closed c' = is_closed c /\ conn_closed c' = conn_closed c) \/ shut c'.
Proof.
  intros Hstep.
  destruct Hstep as [msg err c' H | msg err c' H | c' H | read go_on c' H
                    | write_err go_on c' H].
  - left. conn_unfold. conn_cases. auto.
  - left. conn_unfold. conn_cases; auto.
  - right. exact (Close_shut c c' H).
  - unfold start_reader_turn in H. destruct read as [msg | e].
    + destruct (is_Closed c) eqn:Hc'.
      * destruct (Close c) as [c1| | |] eqn:Hcl; try discriminate H.
        injection H as _ <-. right. exact (Close_shut c c1 Hcl).
      * left. conn_unfold. conn_cases. auto.
    + destruct (Close c) as [c1| | |] eqn:Hcl; try discriminate H.
      injection H as _ <-. right. exact (Close_shut c c1 Hcl).
  - unfold start_writer_turn in H.
    destruct (buf (msg_sender c)) as [|m rest] eqn:Hb.
    + destruct (closed (msg_sender c)); [|discriminate H].
      destruct (Close c) as [c1| | |] eqn:Hcl; try discriminate H.
      injection H as _ <-. right. exact (Close_shut c c1 Hcl).
    + match type of H with
      | context [Close ?x] => destruct (Close x) as [c2| | |] eqn:Hcl
      end.
      * destruct (is_Closed _); [injection H as _ <-; right;
                                  exact (Close_shut _ c2 Hcl) |].
        destruct write_err; injection H as _ <-;
          [right; exact (Close_shut _ c2 Hcl) | left; auto].
      * destruct (is_Closed _); [discriminate H |].
        destruct write_err; [discriminate H |]. injection H as _ <-. left; auto.
      * destruct (is_Closed _); [discriminate H |].
        destruct write_err; [discriminate H |]. injection H as _ <-. left; auto.
      * destruct (is_Closed _); [discriminate H |].
        destruct write_err; [discriminate H |]. injection H as _ <-. left; auto.
Qed.

Lemma conn_steps_shut (c c' : MyWSConnection) :
  shut c -> conn_steps c c' -> shut c'.
Proof.
  intros Hc. induction 1 as [|c1 c2 _ IH Hstep]; [exact Hc |].
  destruct (conn_step_flags c1 c2 Hstep) as [[Hf Hs] | Hshut]; [|exact Hshut].
  destruct IH as [IH1 IH2]. split; congruence.
Qed.

(** C10. Close is idempotent and the closed flag is monotone.  On every
    state a connection can get to, [Close] returns (it does not panic),
    and calling it any number of times, at least once, gives the state
    that one call gives.  After it the flag is set and both channels are
    closed, and they stay so through every later step of every task,
    further calls of [Close] included, each of which returns and changes
    nothing.  Since [close] on a closed channel panics and no call panics,
    each channel is closed exactly once: by the first [Close].  And from
    whatever state has the flag set, no step of any task clears it. *)
Theorem Close_idempotent (name : string) (c : MyWSConnection) (n : nat) :
  conn_reachable name c ->
  exists c1,
    Close c = Ok c1 /\
    Close_times (S n) c = Ok c1 /\
    is_closed c1 = true /\
    closed (msg_sender c1) = true /\ closed (msg_reciver c1) = true /\
    (is_closed c = false ->
     closed (msg_sender c) = false /\ closed (msg_reciver c) = false) /\
    (forall c2, conn_steps c1 c2 ->
      is_closed c2 = true /\
      closed (msg_sender c2) = true /\ closed (msg_reciver c2) = true /\
      Close c2 = Ok c2) /\
    (forall c2, is_closed c = true -> conn_steps c c2 -> is_closed c2 = true).
Proof.
  intros Hreach. pose proof (conn_reachable_inv name c Hreach) as Hinv.
  destruct (Close_returns c Hinv) as [c1 [Hc1 [Hinv1 [Hf [Hs [Hr Hsock]]]]]].
  exists c1. split; [exact Hc1 |]. split.
  { simpl. rewrite Hc1. simpl. exact (Close_times_again n c1 Hf Hsock). }
  split; [exact Hf |]. split; [exact Hs |]. split; [exact Hr |]. split.
  { intros Hopen. destruct Hinv as [H1 H2]. split; congruence. }
  split; [| intros c2 Hc Hsteps; exact (conn_steps_flag c c2 Hc Hsteps)].
  intros c2 Hsteps.
  destruct (conn_steps_shut c1 c2 (conj Hf Hsock) Hsteps) as [Hf2 Hsock2].
  destruct (conn_steps_inv c1 c2 Hinv1 Hsteps) as [Hs2 Hr2].
  split; [exact Hf2 |]. split; [congruence |]. split; [congruence |].
  exact (Close_again c2 Hf2 Hsock2).
Qed.

(** An instance: a fresh page-side connection closed four times. *)
Lemma Close_idempotent_witness :
  exists c1,
    Close (NewMyWSConnection "web") = Ok c1 /\
    Close_times 4 (NewMyWSConnection "web") = Ok c1 /\
    is_closed c1 = true /\
    closed (msg_sender c1) = true /\ closed (msg_reciver c1) = true /\
    (is_closed (NewMyWSConnection "web") = false ->
     closed (msg_sender (NewMyWSConnection "web")) = false /\
     closed (msg_reciver (NewMyWSConnection "web")) = false) /\
    (forall c2, conn_steps c1 c2 ->
      is_closed c2 = true /\
      closed (msg_sender c2) = true /\ closed (msg_reciver c2) = true /\
      Close c2 = Ok c2) /\
    (forall c2, is_closed (NewMyWSConnection "web") = true ->
                conn_steps (NewMyWSConnection "web") c2 -> is_closed c2 = true).
Proof.
  apply (Close_idempotent "web" (NewMyWSConnection "web") 3).
  apply reach_new.
Defined.

(** [ReadMessage] on a closed connection returns the error. *)
Lemma ReadMessage_closed (c : MyWSConnection) :
  is_closed c = true ->
  ReadMessage c = Ok (EmptyString, Some (closed_error c), c).
Proof. intros Hc. unfold ReadMessage, is_Closed. now rewrite Hc. Qed.

(** C8, where the code departs from it.  A reader that has passed the
    test of the flag waits on the empty inbound channel; [Close] then
    closes the channel, and the receive that was waiting returns the empty
    message with a [nil] error: a successful read after the close, not the
    closed-connection error. *)
Theorem ReadMessage_close_while_waiting (name : string) :
  let c := NewMyWSConnection name in
  is_Closed c = false /\
  ReadMessage_recv c = Blocked /\
  exists c',
    Close c = Ok c' /\ is_closed c' = true /\
    ReadMessage_recv c' = Ok (EmptyString, None, c').
Proof.
  simpl. split; [reflexivity |]. split; [reflexivity |].
  eexists. split; [reflexivity |]. split; reflexivity.
Qed.

(** ** The handlers *)

(** [WriteMessage] on an open connection with room puts the message on the
    outbound channel. *)
Lemma WriteMessage_open (c : MyWSConnection) (t : string) :
  conn_inv c -> is_closed c = false -> has_room c ->
  WriteMessage c t = Ok (None, enqueued c t).
Proof.
  intros [Hs _] Hc Hroom. unfold WriteMessage, is_Closed, chan_send.
  rewrite Hc, Hs, Hc. apply Z.ltb_lt in Hroom. rewrite Hroom. simpl.
  unfold enqueued. now rewrite Hs, Hc.
Qed.

(** [WriteMessage] on a closed connection returns the error and does
    nothing. *)
Lemma WriteMessage_closed (c : MyWSConnection) (t : string) :
  is_closed c = true -> WriteMessage c t = Ok (Some (closed_error c), c).
Proof. intros Hc. unfold WriteMessage, is_Closed. now rewrite Hc. Qed.

(** The only error of [WriteMessage] is the one of a closed connection,
    and it leaves the connection as it was. *)
Lemma WriteMessage_error (c c' : MyWSConnection) (t err : string) :
  WriteMessage c t = Ok (Some err, c') -> is_closed c = true /\ c' = c.
Proof.
  unfold WriteMessage, is_Closed. destruct (is_closed c); simpl.
  - intros [= _ <-]. auto.
  - unfold chan_send, mbind, Outcome_bind. intros H. conn_cases.
Qed.

Section HandlerFacts.

Variable MYDEBUGGER_NAME : string.
Variable json_Unmarshal : string -> option DebuggerPaused.

Local Abbreviation from_web :=
  (handle_msg_from_web MYDEBUGGER_NAME json_Unmarshal).

(** The handler of the page side on a message that gets to its second
    rule and is read as a [Debugger.paused]. *)
Lemma handle_msg_from_web_paused _from cinfo msg cdp_res :
  strings.Contains msg id_zero = false ->
  json_Unmarshal msg = Some cdp_res ->
  Method cdp_res = "Debugger.paused" ->
  from_web _from cinfo msg =
    '(handled, c) ← process_debugger_paused MYDEBUGGER_NAME _from cinfo
                      (Params cdp_res);
    if handled : bool then Ok (EmptyString, false, c) else Ok (msg, true, c).
Proof.
  intros Hid Hparse Hm. unfold handle_msg_from_web.
  rewrite Hid, Hparse, Hm. reflexivity.
Qed.

(** The rule for a pause on a [debugger] statement whose innermost frame
    is [frame0]: one command is written to the source, and the pause
    counts as dealt with when the write has no error. *)
Lemma process_debugger_paused_js _from cinfo params frame0 frames :
  Reason params = "other" ->
  HitBreakpoints params = [] ->
  CallFrames params = frame0 :: frames ->
  process_debugger_paused MYDEBUGGER_NAME _from cinfo params =
    '(err, c) ← WriteMessage _from
                  (if String.eqb (FunctionName frame0) MYDEBUGGER_NAME
                   then stepOut_command else resume_command);
    match err with
    | Some _ => Ok (false, c)
    | None => Ok (true, c)
    end.
Proof.
  intros Hr Hh Hf. unfold process_debugger_paused. rewrite Hr, Hh, Hf. simpl.
  destruct (String.eqb (FunctionName frame0) MYDEBUGGER_NAME); reflexivity.
Qed.

(** Whatever the handler of the page side writes to its source carries
    the text searched for by its first rule. *)
Lemma from_web_writes_id_zero _from cinfo msg data is_ok c' :
  from_web _from cinfo msg = Ok (data, is_ok, c') ->
  c' = _from \/
  exists t, strings.Contains t id_zero = true /\
            WriteMessage _from t = Ok (None, c').
Proof.
  unfold handle_msg_from_web, process_debugger_paused.
  intros H.
  destruct (strings.Contains msg id_zero); [injection H as _ _ <-; now left |].
  destruct (json_Unmarshal msg) as [cdp_res|]; [|injection H as _ _ <-; now left].
  destruct (String.eqb (Method cdp_res) "Debugger.paused");
    [|injection H as _ _ <-; now left].
  destruct (negb _); [simpl in H; injection H as _ _ <-; now left |].
  destruct (CallFrames (Params cdp_res)) as [|frame0 frames]; [discriminate H |].
  destruct (String.eqb (FunctionName frame0) MYDEBUGGER_NAME).
  - destruct (WriteMessage _from stepOut_command) as [[[e|] c1]| | |] eqn:Hw;
      simpl in H; try discriminate H; injection H as _ _ <-.
    + left. now apply WriteMessage_error in Hw.
    + right. exists stepOut_command. split; [reflexivity | exact Hw].
  - destruct (WriteMessage _from resume_command) as [[[e|] c1]| | |] eqn:Hw;
      simpl in H; try discriminate H; injection H as _ _ <-.
    + left. now apply WriteMessage_error in Hw.
    + right. exists resume_command. split; [reflexivity | exact Hw].
Qed.

(** C6. The echo-drop rule.  A message from the page that contains the
    text of an [id] member with value 0 is dropped: the handler returns
    [false] with the source untouched, whatever the JSON decoder would
    make of the message (the decoder is not consulted: the equation
    holds for every decoder), and the loop writes nothing to DevTools.
    Every frame the handler itself sends to the page contains that
    text, so the answer that echoes its [id] is dropped by this rule. *)
Theorem echo_drop _from cinfo msg :
  strings.Contains msg id_zero = true ->
  from_web _from cinfo msg = Ok (EmptyString, false, _from) /\
  (forall _to,
      transimiter_deliver (Some from_web) _from _to cinfo msg
      = Ok (true, _from, _to)) /\
  (forall c m data is_ok c',
      from_web c cinfo m = Ok (data, is_ok, c') ->
      c' = c \/
      exists t, strings.Contains t id_zero = true /\
                WriteMessage c t = Ok (None, c')).
Proof.
  intros Hid.
  assert (H : from_web _from cinfo msg = Ok (EmptyString, false, _from)).
  { unfold handle_msg_from_web. now rewrite Hid. }
  split; [exact H |]. split.
  - intros _to. unfold transimiter_deliver, call_handler. now rewrite H.
  - intros c m data is_ok c'. apply from_web_writes_id_zero.
Qed.

(** C2, as the code has it.  A message from the page that does not
    contain the text of the echo-drop rule, is read as a
    [Debugger.paused] with reason [other], no hit breakpoint and a first
    call frame whose function is not the configured one, on a source
    connection that is open and has room in its outbound channel: the
    handler drops the message, and the one thing it does to the source
    is to put the [Debugger.resume] command on its outbound channel.
    The loop writes nothing to DevTools. *)
Theorem trap_resume _from cinfo msg cdp_res frame0 frames :
  strings.Contains msg id_zero = false ->
  json_Unmarshal msg = Some cdp_res ->
  Method cdp_res = "Debugger.paused" ->
  Reason (Params cdp_res) = "other" ->
  HitBreakpoints (Params cdp_res) = [] ->
  CallFrames (Params cdp_res) = frame0 :: frames ->
  FunctionName frame0 <> MYDEBUGGER_NAME ->
  conn_inv _from -> is_closed _from = false -> has_room _from ->
  from_web _from cinfo msg
    = Ok (EmptyString, false, enqueued _from resume_command) /\
  forall _to,
    transimiter_deliver (Some from_web) _from _to cinfo msg
    = Ok (true, enqueued _from resume_command, _to).
Proof.
  intros Hid Hparse Hm Hr Hh Hf Hname Hinv Hopen Hroom.
  assert (H : from_web _from cinfo msg
              = Ok (EmptyString, false, enqueued _from resume_command)).
  { rewrite (handle_msg_from_web_paused _ _ _ _ Hid Hparse Hm).
    rewrite (process_debugger_paused_js _ _ _ _ _ Hr Hh Hf).
    apply String.eqb_neq in Hname. rewrite Hname.
    now rewrite (WriteMessage_open _ _ Hinv Hopen Hroom). }
  split; [exact H |].
  intros _to. unfold transimiter_deliver, call_handler. now rewrite H.
Qed.

(** C3, as the code has it.  As for C2, with a first call frame whose
    function is the configured one: the handler drops the message, and
    the one thing it does to the source is to put the
    [Debugger.stepOut] command on its outbound channel. *)
Theorem sentinel_step_out _from cinfo msg cdp_res frame0 frames :
  strings.Contains msg id_zero = false ->
  json_Unmarshal msg = Some cdp_res ->
  Method cdp_res = "Debugger.paused" ->
  Reason (Params cdp_res) = "other" ->
  HitBreakpoints (Params cdp_res) = [] ->
  CallFrames (Params cdp_res) = frame0 :: frames ->
  FunctionName frame0 = MYDEBUGGER_NAME ->
  conn_inv _from -> is_closed _from = false -> has_room _from ->
  from_web _from cinfo msg
    = Ok (EmptyString, false, enqueued _from stepOut_command) /\
  forall _to,
    transimiter_deliver (Some from_web) _from _to cinfo msg
    = Ok (true, enqueued _from stepOut_command, _to).
Proof.
  intros Hid Hparse Hm Hr Hh Hf Hname Hinv Hopen Hroom.
  assert (H : from_web _from cinfo msg
              = Ok (EmptyString, false, enqueued _from stepOut_command)).
  { rewrite (handle_msg_from_web_paused _ _ _ _ Hid Hparse Hm).
    rewrite (process_debugger_paused_js _ _ _ _ _ Hr Hh Hf).
    apply String.eqb_eq in Hname. rewrite Hname.
    now rewrite (WriteMessage_open _ _ Hinv Hopen Hroom). }
  split; [exact H |].
  intros _to. unfold transimiter_deliver, call_handler. now rewrite H.
Qed.

(** C9. The fallback when the injection fails.  In the rule for a pause
    on a [debugger] statement, when the write of the command
    ([Debugger.stepOut] or [Debugger.resume], as the first call frame
    decides) returns an error, the rule returns [false] and leaves the
    source as it was; the handler then returns the message it was given
    with [true], and the loop writes that very message to DevTools. *)
Theorem injection_failure_forwards _from cinfo params frame0 frames err c' :
  Reason params = "other" ->
  HitBreakpoints params = [] ->
  CallFrames params = frame0 :: frames ->
  WriteMessage _from
    (if String.eqb (FunctionName frame0) MYDEBUGGER_NAME
     then stepOut_command else resume_command) = Ok (Some err, c') ->
  process_debugger_paused MYDEBUGGER_NAME _from cinfo params = Ok (false, _from) /\
  forall msg cdp_res,
    strings.Contains msg id_zero = false ->
    json_Unmarshal msg = Some cdp_res ->
    Method cdp_res = "Debugger.paused" ->
    Params cdp_res = params ->
    from_web _from cinfo msg = Ok (msg, true, _from) /\
    forall _to,
      transimiter_deliver (Some from_web) _from _to cinfo msg
      = '(e, to1) ← WriteMessage _to msg;
        match e with
        | Some _ => Ok (false, _from, to1)
        | None => Ok (true, _from, to1)
        end.
Proof.
  intros Hr Hh Hf Hw.
  pose proof (WriteMessage_error _ _ _ _ Hw) as [_ ->].
  assert (Hp : process_debugger_paused MYDEBUGGER_NAME _from cinfo params
               = Ok (false, _from)).
  { rewrite (process_debugger_paused_js _ _ _ _ _ Hr Hh Hf). now rewrite Hw. }
  split; [exact Hp |].
  intros msg cdp_res Hid Hparse Hm <-.
  assert (H : from_web _from cinfo msg = Ok (msg, true, _from)).
  { rewrite (handle_msg_from_web_paused _ _ _ _ Hid Hparse Hm). now rewrite Hp. }
  split; [exact H |].
  intros _to. unfold transimiter_deliver, call_handler. now rewrite H.
Qed.

End HandlerFacts.

(** ** The frames of the specification's scenarios *)

Lemma trap_frame_decodes : Json.Unmarshal trap_frame = Some trap_paused.
Proof. vm_compute. reflexivity. Qed.

Lemma sentinel_frame_decodes : Json.Unmarshal sentinel_frame = Some sentinel_paused.
Proof. vm_compute. reflexivity. Qed.

Lemma Close_new_web : Close (NewMyWSConnection "web") = Ok closed_web.
Proof. reflexivity. Qed.

(** Scenario 1: the trap is resumed and the answer to the resume is
    dropped. *)
Example scenario_trap_resume :
  let web := NewMyWSConnection "web" in
  handle_msg_from_web "lovedebug" Json.Unmarshal web web_info trap_frame
  = Ok (EmptyString, false, enqueued web resume_command) /\
  handle_msg_from_web "lovedebug" Json.Unmarshal
    (enqueued web resume_command) web_info echo_frame
  = Ok (EmptyString, false, enqueued web resume_command).
Proof. split; vm_compute; reflexivity. Qed.

(** Scenario 2: the pause in the sentinel is stepped out of. *)
Example scenario_sentinel_step_out :
  let web := NewMyWSConnection "web" in
  handle_msg_from_web "lovedebug" Json.Unmarshal web web_info sentinel_frame
  = Ok (EmptyString, false, enqueued web stepOut_command).
Proof. vm_compute. reflexivity. Qed.

(** Scenario 3: a pause on a breakpoint passes through. *)
Example scenario_breakpoint_passes :
  let web := NewMyWSConnection "web" in
  handle_msg_from_web "lovedebug" Json.Unmarshal web web_info breakpoint_frame
  = Ok (breakpoint_frame, true, web).
Proof. vm_compute. reflexivity. Qed.

(** What the loop does with the empty message that a read gives when the
    connection is closed under it: the handler lets it through and it is
    put on the outbound channel of the other side. *)
Example empty_frame_is_forwarded :
  transimiter_deliver (Some (handle_msg_from_web "lovedebug" Json.Unmarshal))
    closed_web (NewMyWSConnection "devtools") web_info EmptyString
  = Ok (true, closed_web, enqueued (NewMyWSConnection "devtools") EmptyString).
Proof. vm_compute. reflexivity. Qed.

(** An instance of C6: an event of the page with the text inside. *)
Lemma echo_drop_witness :
  handle_msg_from_web "lovedebug" Json.Unmarshal (NewMyWSConnection "web")
    web_info event_with_id_zero
  = Ok (EmptyString, false, NewMyWSConnection "web") /\
  (forall _to,
      transimiter_deliver (Some (handle_msg_from_web "lovedebug" Json.Unmarshal))
        (NewMyWSConnection "web") _to web_info event_with_id_zero
      = Ok (true, NewMyWSConnection "web", _to)) /\
  (forall c m data is_ok c',
      handle_msg_from_web "lovedebug" Json.Unmarshal c web_info m
      = Ok (data, is_ok, c') ->
      c' = c \/
      exists t, strings.Contains t id_zero = true /\
                WriteMessage c t = Ok (None, c')).
Proof.
  apply (echo_drop "lovedebug" Json.Unmarshal (NewMyWSConnection "web")
           web_info event_with_id_zero).
  vm_compute. reflexivity.
Defined.

(** An instance of C2 as the code has it: scenario 1. *)
Lemma trap_resume_witness :
  handle_msg_from_web "lovedebug" Json.Unmarshal (NewMyWSConnection "web")
    web_info trap_frame
  = Ok (EmptyString, false, enqueued (NewMyWSConnection "web") resume_command) /\
  forall _to,
    transimiter_deliver (Some (handle_msg_from_web "lovedebug" Json.Unmarshal))
      (NewMyWSConnection "web") _to web_info trap_frame
    = Ok (true, enqueued (NewMyWSConnection "web") resume_command, _to).
Proof.
  apply (trap_resume "lovedebug" Json.Unmarshal (NewMyWSConnection "web")
           web_info trap_frame trap_paused
           {| FunctionName := "trap_xyz" |} []).
  - vm_compute. reflexivity.
  - vm_compute. reflexivity.
  - reflexivity.
  - reflexivity.
  - reflexivity.
  - reflexivity.
  - simpl. discriminate.
  - split; reflexivity.
  - reflexivity.
  - reflexivity.
Defined.

(** An instance of C3 as the code has it: scenario 2. *)
Lemma sentinel_step_out_witness :
  handle_msg_from_web "lovedebug" Json.Unmarshal (NewMyWSConnection "web")
    web_info sentinel_frame
  = Ok (EmptyString, false, enqueued (NewMyWSConnection "web") stepOut_command) /\
  forall _to,
    transimiter_deliver (Some (handle_msg_from_web "lovedebug" Json.Unmarshal))
      (NewMyWSConnection "web") _to web_info sentinel_frame
    = Ok (true, enqueued (NewMyWSConnection "web") stepOut_command, _to).
Proof.
  apply (sentinel_step_out "lovedebug" Json.Unmarshal (NewMyWSConnection "web")
           web_info sentinel_frame sentinel_paused
           {| FunctionName := "lovedebug" |} [{| FunctionName := "userCode" |}]).
  - vm_compute. reflexivity.
  - vm_compute. reflexivity.
  - reflexivity.
  - reflexivity.
  - reflexivity.
  - reflexivity.
  - reflexivity.
  - split; reflexivity.
  - reflexivity.
  - reflexivity.
Defined.

(** An instance of C9: the page side has closed when the handler gets to
    write the resume of scenario 1. *)
Lemma injection_failure_forwards_witness :
  process_debugger_paused "lovedebug" closed_web web_info (Params trap_paused)
  = Ok (false, closed_web) /\
  forall msg cdp_res,
    strings.Contains msg id_zero = false ->
    Json.Unmarshal msg = Some cdp_res ->
    Method cdp_res = "Debugger.paused" ->
    Params cdp_res = Params trap_paused ->
    handle_msg_from_web "lovedebug" Json.Unmarshal closed_web web_info msg
    = Ok (msg, true, closed_web) /\
    forall _to,
      transimiter_deliver (Some (handle_msg_from_web "lovedebug" Json.Unmarshal))
        closed_web _to web_info msg
      = '(e, to1) ← WriteMessage _to msg;
        match e with
        | Some _ => Ok (false, closed_web, to1)
        | None => Ok (true, closed_web, to1)
        end.
Proof.
  apply (injection_failure_forwards "lovedebug" Json.Unmarshal closed_web web_info
           (Params trap_paused) {| FunctionName := "trap_xyz" |} []
           "web connection closed" closed_web).
  - reflexivity.
  - reflexivity.
  - reflexivity.
  - reflexivity.
Defined.

Lemma closed_web_reachable : conn_reachable "web" closed_web.
Proof.
  apply (reach_step "web" (NewMyWSConnection "web")); [apply reach_new |].
  apply step_Close. reflexivity.
Qed.

(** C2 fails as stated on two inputs.  With the page-side connection
    closed, the trap of scenario 1 is forwarded to DevTools and nothing is
    written; and the same trap with an [id] member of value 0 is dropped
    by the first rule, with nothing written. *)
Lemma trap_resume_counterexample :
  conn_reachable "web" closed_web /\
  handle_msg_from_web "lovedebug" Json.Unmarshal closed_web web_info trap_frame
  = Ok (trap_frame, true, closed_web) /\
  ~ trap_resume_as_stated "lovedebug" closed_web web_info trap_frame /\
  handle_msg_from_web "lovedebug" Json.Unmarshal (NewMyWSConnection "web")
    web_info trap_frame_id_zero
  = Ok (EmptyString, false, NewMyWSConnection "web") /\
  ~ trap_resume_as_stated "lovedebug" (NewMyWSConnection "web") web_info
      trap_frame_id_zero.
Proof.
  split; [exact closed_web_reachable |].
  split; [vm_compute; reflexivity |]. split.
  - intros H.
    specialize (H trap_paused {| FunctionName := "trap_xyz" |} []).
    assert (He : handle_msg_from_web "lovedebug" Json.Unmarshal closed_web
                   web_info trap_frame = Ok (trap_frame, true, closed_web))
      by (vm_compute; reflexivity).
    rewrite He in H.
    assert (Hd : Ok (trap_frame, true, closed_web)
                 = Ok (EmptyString, false, enqueued closed_web resume_command)).
    { apply H; first [reflexivity | vm_compute; reflexivity | simpl; discriminate]. }
    discriminate Hd.
  - split; [vm_compute; reflexivity |].
    intros H.
    specialize (H trap_paused {| FunctionName := "trap_xyz" |} []).
    assert (He : handle_msg_from_web "lovedebug" Json.Unmarshal
                   (NewMyWSConnection "web") web_info trap_frame_id_zero
                 = Ok (EmptyString, false, NewMyWSConnection "web"))
      by (vm_compute; reflexivity).
    rewrite He in H.
    assert (Hd : Ok (EmptyString, false, NewMyWSConnection "web")
                 = Ok (EmptyString, false,
                       enqueued (NewMyWSConnection "web") resume_command)).
    { apply H; first [reflexivity | vm_compute; reflexivity | simpl; discriminate]. }
    discriminate Hd.
Qed.

(** C3 fails as stated on the same two kinds of input. *)
Lemma sentinel_step_out_counterexample :
  conn_reachable "web" closed_web /\
  handle_msg_from_web "lovedebug" Json.Unmarshal closed_web web_info sentinel_frame
  = Ok (sentinel_frame, true, closed_web) /\
  ~ sentinel_step_out_as_stated "lovedebug" closed_web web_info sentinel_frame /\
  handle_msg_from_web "lovedebug" Json.Unmarshal (NewMyWSConnection "web")
    web_info sentinel_frame_id_zero
  = Ok (EmptyString, false, NewMyWSConnection "web") /\
  ~ sentinel_step_out_as_stated "lovedebug" (NewMyWSConnection "web") web_info
      sentinel_frame_id_zero.
Proof.
  split; [exact closed_web_reachable |].
  split; [vm_compute; reflexivity |]. split.
  - intros H.
    specialize (H sentinel_paused {| FunctionName := "lovedebug" |}
                  [{| FunctionName := "userCode" |}]).
    assert (He : handle_msg_from_web "lovedebug" Json.Unmarshal closed_web
                   web_info sentinel_frame = Ok (sentinel_frame, true, closed_web))
      by (vm_compute; reflexivity).
    rewrite He in H.
    assert (Hd : Ok (sentinel_frame, true, closed_web)
                 = Ok (EmptyString, false, enqueued closed_web stepOut_command)).
    { apply H; first [reflexivity | vm_compute; reflexivity]. }
    discriminate Hd.
  - split; [vm_compute; reflexivity |].
    intros H.
    specialize (H sentinel_paused {| FunctionName := "lovedebug" |}
                  [{| FunctionName := "userCode" |}]).
    assert (He : handle_msg_from_web "lovedebug" Json.Unmarshal
                   (NewMyWSConnection "web") web_info sentinel_frame_id_zero
                 = Ok (EmptyString, false, NewMyWSConnection "web"))
      by (vm_compute; reflexivity).
    rewrite He in H.
    assert (Hd : Ok (EmptyString, false, NewMyWSConnection "web")
                 = Ok (EmptyString, false,
                       enqueued (NewMyWSConnection "web") stepOut_command)).
    { apply H; first [reflexivity | vm_compute; reflexivity]. }
    discriminate Hd.
Qed.

(** C5, where the code departs from it.  On a pause with reason [other],
    no hit breakpoint and no call frame, the rule indexes the empty
    [CallFrames] and panics; so does the handler on the frame that decodes
    to it, and the loop that called the handler. *)
Theorem paused_without_call_frames_panics
    (MYDEBUGGER_NAME : string) (c : MyWSConnection) (cinfo : ConnectionInfo) :
  Json.Unmarshal no_frames_frame
  = Some {| Method := "Debugger.paused";
            Params := {| Reason := "other"; HitBreakpoints := [];
                         CallFrames := [] |} |} /\
  process_debugger_paused MYDEBUGGER_NAME c cinfo
    {| Reason := "other"; HitBreakpoints := []; CallFrames := [] |}
  = Panic "runtime error: index out of range [0] with length 0" /\
  handle_msg_from_web MYDEBUGGER_NAME Json.Unmarshal c cinfo no_frames_frame
  = Panic "runtime error: index out of range [0] with length 0" /\
  forall _to,
    transimiter_deliver (Some (handle_msg_from_web MYDEBUGGER_NAME Json.Unmarshal))
      c _to cinfo no_frames_frame
    = Panic "runtime error: index out of range [0] with length 0".
Proof.
  assert (Hd : Json.Unmarshal no_frames_frame
               = Some {| Method := "Debugger.paused";
                         Params := {| Reason := "other"; HitBreakpoints := [];
                                      CallFrames := [] |} |})
    by (vm_compute; reflexivity).
  assert (Hh : handle_msg_from_web MYDEBUGGER_NAME Json.Unmarshal c cinfo
                 no_frames_frame
               = Panic "runtime error: index out of range [0] with length 0").
  { unfold handle_msg_from_web. rewrite Hd.
    replace (strings.Contains no_frames_frame id_zero) with false
      by (vm_compute; reflexivity).
    reflexivity. }
  split; [exact Hd |]. split; [reflexivity |]. split; [exact Hh |].
  intros _to. unfold transimiter_deliver, call_handler. now rewrite Hh.
Qed.

(** C7. The handler of the DevTools side.  On every message it returns
    [true] and its source as it was given (it writes nothing there).  A
    message without the name of the overlay method is returned as it is.
    In a message with that name, the leftmost instance of the overlay
    text, wherever it stands between a [pre] and a [post], is replaced by
    the text with the attribution and [pre] and [post] are kept, later
    instances in [post] included; without an instance the message is
    returned as it is. *)
Theorem handle_msg_from_devtools_spec
    (_from : MyWSConnection) (cinfo : ConnectionInfo) (msg : string) :
  exists data,
    handle_msg_from_devtools _from cinfo msg = Ok (data, true, _from) /\
    (strings.Contains msg "Overlay.setPausedInDebuggerMessage" = false ->
     data = msg) /\
    (strings.Contains msg "Overlay.setPausedInDebuggerMessage" = true ->
     (forall pre post,
         first_instance msg "Paused in debugger" pre post ->
         data = pre +:+ ("Paused in debugger - Surprise " +:+ Author) +:+ post) /\
     (strings.Contains msg "Paused in debugger" = false -> data = msg)).
Proof.
  unfold handle_msg_from_devtools.
  destruct (strings.Contains msg "Overlay.setPausedInDebuggerMessage") eqn:Ho.
  - eexists. split; [reflexivity |]. split; [discriminate |]. intros _.
    assert (Hrep : forall new,
               String.eqb "Paused in debugger" new = false ->
               strings.Replace msg "Paused in debugger" new 1
               = strings.replace_loop msg "Paused in debugger" new 1 0).
    { intros new Hn. unfold strings.Replace. now rewrite Hn. }
    rewrite Hrep by reflexivity. split.
    + intros pre post Hf.
      apply strings_facts.replace_loop_first; [discriminate | exact Hf].
    + intros Hc. now apply strings_facts.replace_loop_none.
  - exists msg. split; [reflexivity |]. split; [reflexivity | discriminate].
Qed.

(** Scenario 4: the first instance is rewritten, the later one is not. *)
Example scenario_overlay_rewrite :
  handle_msg_from_devtools (NewMyWSConnection "devtools") devtools_info overlay_frame
  = Ok (overlay_frame_rewritten, true, NewMyWSConnection "devtools").
Proof. vm_compute. reflexivity. Qed.

(** ** The acceptor and the registry *)

(** No function of the program puts a pair in the registry: an absent
    path stays absent through every step. *)
Lemma world_step_pool (w w' : World) (path : string) :
  world_step w w' ->
  CONNECTION_POOL w !! path = None -> CONNECTION_POOL w' !! path = None.
Proof.
  intros Hstep Hnone.
  destruct Hstep as [p upgrade w' H | d p dial w' _ H | d web p w' _ H | p c c' _ _].
  - unfold websocket_handler in H.
    destruct (CONNECTION_POOL w !! p); [injection H as <-; exact Hnone |].
    destruct upgrade; [discriminate H |]. injection H as <-. exact Hnone.
  - unfold start_transmiter_task_begin in H. destruct dial.
    + destruct (heap_Close (heap w) d); try discriminate H.
      injection H as <-. exact Hnone.
    + injection H as <-. exact Hnone.
  - unfold start_transmiter_task_end in H.
    destruct (heap_Close (heap w) web) as [h1| | |]; try discriminate H.
    simpl in H. destruct (heap_Close h1 d) as [h2| | |]; try discriminate H.
    injection H as <-. simpl.
    destruct (decide (p = path)) as [-> | Hne].
    + apply lookup_delete_eq.
    + rewrite lookup_delete_ne by exact Hne. exact Hnone.
  - exact Hnone.
Qed.

(** The registry is empty in every state of the process. *)
Lemma pool_always_empty (w : World) (path : string) :
  world_reachable w -> CONNECTION_POOL w !! path = None.
Proof.
  induction 1 as [|w w' _ IH Hstep].
  - apply lookup_empty.
  - exact (world_step_pool w w' path Hstep IH).
Qed.

(** Hence no request is ever declined: a request whose handshake succeeds
    gets a connection and a task, whatever sessions are live. *)
Lemma request_never_declined (w : World) (path : string) :
  world_reachable w ->
  websocket_handler w path None
  = Ok {| CONNECTION_POOL := CONNECTION_POOL w;
          heap := heap w ++ [NewMyWSConnection "devtools"];
          tasks := tasks w ++ [task_start (length (heap w)) path] |}.
Proof.
  intros Hw. unfold websocket_handler.
  now rewrite (pool_always_empty w path Hw).
Qed.

Lemma one_session_reachable : world_reachable one_session.
Proof.
  apply (reach_world_step
           {| CONNECTION_POOL := ∅; heap := [NewMyWSConnection "devtools"];
              tasks := [task_start 0 "/p/1"] |}).
  - apply (reach_world_step init_world); [apply reach_init |].
    apply (step_request init_world "/p/1" None). reflexivity.
  - apply (step_begin _ 0 "/p/1" None); [now left | reflexivity].
Qed.

(** C1, where the code departs from it.  Scenario 5: client A connects on
    [/p/1] and its session is live; the registry has no entry for [/p/1];
    client B connecting on [/p/1] is not declined but gets a connection
    and a task of its own, and once that task has dialled two sessions are
    live on the same target. *)
Theorem second_client_is_accepted :
  websocket_handler init_world "/p/1" None
  = Ok {| CONNECTION_POOL := ∅; heap := [NewMyWSConnection "devtools"];
          tasks := [task_start 0 "/p/1"] |} /\
  start_transmiter_task_begin
    {| CONNECTION_POOL := ∅; heap := [NewMyWSConnection "devtools"];
       tasks := [task_start 0 "/p/1"] |} 0 "/p/1" None
  = Ok one_session /\
  live_sessions one_session "/p/1" = [task_session 0 1 "/p/1"] /\
  CONNECTION_POOL one_session !! "/p/1" = None /\
  exists w3 w4,
    websocket_handler one_session "/p/1" None = Ok w3 /\
    tasks w3 = [task_session 0 1 "/p/1"; task_start 2 "/p/1"] /\
    start_transmiter_task_begin w3 2 "/p/1" None = Ok w4 /\
    live_sessions w4 "/p/1" = [task_session 0 1 "/p/1"; task_session 2 3 "/p/1"].
Proof.
  split; [reflexivity |]. split; [reflexivity |]. split; [reflexivity |].
  split; [apply lookup_empty |].
  eexists; eexists.
  split; [apply (request_never_declined _ _ one_session_reachable) |].
  split; [reflexivity |]. split; reflexivity.
Qed.

(** C4, where the code departs from it.  With a session live on [/p/1], a
    request on another path whose handshake fails ends the process
    ([log.Fatal]): the outcome is not a state in which the live session
    and the acceptor go on. *)
Theorem upgrade_failure_ends_process (err : string) :
  world_reachable one_session /\
  live_sessions one_session "/p/1" = [task_session 0 1 "/p/1"] /\
  websocket_handler one_session "/p/2" (Some err)
  = Fatal ("upgrade websocket failed: " +:+ err) /\
  forall w', websocket_handler one_session "/p/2" (Some err) <> Ok w'.
Proof.
  split; [exact one_session_reachable |]. split; [reflexivity |].
  assert (H : websocket_handler one_session "/p/2" (Some err)
              = Fatal ("upgrade websocket failed: " +:+ err)).
  { unfold websocket_handler.
    now rewrite (pool_always_empty _ _ one_session_reachable). }
  split; [exact H |]. intros w'. rewrite H. discriminate.
Qed.


(** ** More on connections *)

Lemma Close_name (c c' : MyWSConnection) : Close c = Ok c' -> Name c' = Name c.
Proof. intros H. conn_unfold. conn_cases; reflexivity. Qed.

(** What [Close] gives on a state that keeps the invariant. *)
Lemma Close_result (c : MyWSConnection) :
  conn_inv c ->
  exists c', Close c = Ok c' /\ conn_inv c' /\ shut c' /\ channels_closed c'
             /\ Name c' = Name c.
Proof.
  intros Hinv.
  destruct (Close_returns c Hinv) as [c' [Hc [Hinv' [Hf [Hs [Hr Hsock]]]]]].
  exists c'. split; [exact Hc |]. split; [exact Hinv' |].
  split; [split; assumption |]. split; [split; assumption |].
  exact (Close_name c c' Hc).
Qed.

(** The three outcomes of [WriteMessage] when no other task runs during
    it. *)
Lemma WriteMessage_cases (c : MyWSConnection) (m : string) :
  conn_inv c ->
  (is_closed c = true /\ WriteMessage c m = Ok (Some (closed_error c), c)) \/
  (is_closed c = false /\ has_room c /\ WriteMessage c m = Ok (None, enqueued c m)) \/
  (is_closed c = false /\ ~ has_room c /\ WriteMessage c m = Blocked).
Proof.
  intros Hinv. destruct (is_closed c) eqn:Hc.
  - left. split; [reflexivity |]. now apply WriteMessage_closed.
  - right. destruct (Z.ltb_spec (Z.of_nat (length (buf (msg_sender c)))) buffer_size)
      as [Hlt | Hge].
    + left. split; [reflexivity |]. split; [exact Hlt |].
      now apply WriteMessage_open.
    + right. split; [reflexivity |]. split; [unfold has_room; lia |].
      destruct Hinv as [Hs _]. unfold WriteMessage, is_Closed, chan_send.
      rewrite Hc, Hs, Hc. apply Z.ltb_ge in Hge. now rewrite Hge.
Qed.

(** A write without error put the message on the outbound channel. *)
Lemma WriteMessage_ok (c c' : MyWSConnection) (m : string) :
  WriteMessage c m = Ok (None, c') -> c' = enqueued c m /\ is_closed c = false.
Proof.
  unfold WriteMessage, is_Closed, chan_send, mbind, Outcome_bind.
  intros H. conn_cases. unfold enqueued.
  match goal with Hc : is_closed c = false, Hs : closed (msg_sender c) = false |- _ =>
    rewrite Hc, Hs end.
  auto.
Qed.

(** The three outcomes of [ReadMessage] when no other task runs during
    it. *)
Lemma ReadMessage_cases (c : MyWSConnection) :
  conn_inv c ->
  (is_closed c = true /\
   ReadMessage c = Ok (EmptyString, Some (closed_error c), c)) \/
  (is_closed c = false /\
   exists m, head (buf (msg_reciver c)) = Some m /\
             ReadMessage c = Ok (m, None, dequeued c 1)) \/
  (is_closed c = false /\ buf (msg_reciver c) = [] /\ ReadMessage c = Blocked).
Proof.
  intros [_ Hr]. destruct (is_closed c) eqn:Hc.
  - left. split; [reflexivity |]. now apply ReadMessage_closed.
  - right. unfold ReadMessage, ReadMessage_recv, is_Closed, chan_recv, dequeued.
    rewrite Hc. destruct (buf (msg_reciver c)) as [|m rest] eqn:Hb.
    + right. split; [reflexivity |]. split; [reflexivity |]. now rewrite Hr.
    + left. split; [reflexivity |]. exists m. split; [reflexivity |].
      reflexivity.
Qed.

Lemma dequeued_inv (c : MyWSConnection) (k : nat) :
  conn_inv c -> conn_inv (dequeued c k).
Proof. intros [Hs Hr]. split; simpl; assumption. Qed.

Lemma enqueued_inv (c : MyWSConnection) (m : string) :
  conn_inv c -> conn_inv (enqueued c m).
Proof. intros [Hs Hr]. split; simpl; assumption. Qed.

Lemma received_all_inv (c : MyWSConnection) (ms : list string) :
  conn_inv c -> conn_inv (received_all c ms).
Proof. intros [Hs Hr]. split; simpl; assumption. Qed.

Lemma dequeued_0 (c : MyWSConnection) : dequeued c 0 = c.
Proof. destruct c as [n s o [b r] f]. reflexivity. Qed.

Lemma dequeued_dequeued (c : MyWSConnection) (j k : nat) :
  dequeued (dequeued c j) k = dequeued c (j + k).
Proof. unfold dequeued. simpl. now rewrite drop_drop. Qed.

Lemma enqueued_all_nil (c : MyWSConnection) : enqueued_all c [] = c.
Proof.
  destruct c as [n s [b r] i f]. unfold enqueued_all. simpl.
  now rewrite app_nil_r.
Qed.

Lemma enqueued_all_cons (c : MyWSConnection) (m : string) (ms : list string) :
  enqueued_all (enqueued c m) ms = enqueued_all c (m :: ms).
Proof. unfold enqueued_all, enqueued. simpl. now rewrite <- app_assoc. Qed.

Lemma received_all_nil (c : MyWSConnection) : received_all c [] = c.
Proof.
  destruct c as [n s o [b r] f]. unfold received_all. simpl.
  now rewrite app_nil_r.
Qed.

(** The reader task puts every frame it is given on the inbound channel,
    as long as there is room. *)
Lemma start_reader_turns_open (msgs : list string) :
  forall c,
    conn_inv c -> is_closed c = false ->
    (Z.of_nat (length (buf (msg_reciver c)) + length msgs) <= buffer_size)%Z ->
    start_reader_turns c msgs = Ok (true, received_all c msgs).
Proof.
  induction msgs as [|m msgs IH]; intros c Hinv Hc Hroom.
  - simpl. now rewrite received_all_nil.
  - pose proof Hinv as [_ Hr]. cbn [start_reader_turns].
    unfold start_reader_turn, is_Closed, chan_send. rewrite Hc, Hr, Hc.
    simpl in Hroom.
    assert (Hlt : (Z.of_nat (length (buf (msg_reciver c))) <? buffer_size)%Z = true)
      by (apply Z.ltb_lt; lia).
    rewrite Hlt. simpl.
    rewrite IH.
    + unfold received_all. simpl. now rewrite <- app_assoc, Hr, Hc.
    + destruct Hinv as [Hs _]. split; simpl; congruence.
    + reflexivity.
    + simpl. rewrite length_app. simpl. lia.
Qed.

(** Reading as many times as there are messages waiting gives them all,
    oldest first. *)
Lemma ReadMessages_waiting (c : MyWSConnection) :
  conn_inv c -> is_closed c = false ->
  ReadMessages (length (buf (msg_reciver c))) c
  = Ok (buf (msg_reciver c), None, dequeued c (length (buf (msg_reciver c)))).
Proof.
  intros Hinv Hc.
  remember (buf (msg_reciver c)) as l eqn:Hl.
  revert c Hinv Hc Hl. induction l as [|m l IH]; intros c Hinv Hc Hl.
  - simpl. now rewrite dequeued_0.
  - cbn [length ReadMessages].
    destruct (ReadMessage_cases c Hinv) as [[Hx _] | [[_ [m' [Hh Hrd]]] | [_ [Hb _]]]];
      [congruence | | congruence].
    rewrite <- Hl in Hh. injection Hh as <-. rewrite Hrd. simpl.
    rewrite (IH (dequeued c 1)).
    + simpl. now rewrite dequeued_dequeued.
    + now apply dequeued_inv.
    + exact Hc.
    + simpl. now rewrite <- Hl.
Qed.

(** X1. Frames come out of a connection in the order the socket gave them.
    On an open connection with room on its inbound channel, the reader
    task queues every frame it is given, and reading as many times as
    there are messages waiting returns the ones that were waiting
    before followed by the new ones, in that order, leaving the inbound
    channel empty and the rest of the connection as it was. *)
Theorem reader_then_ReadMessages_fifo (c : MyWSConnection) (msgs : list string) :
  conn_inv c -> is_closed c = false ->
  (Z.of_nat (length (buf (msg_reciver c)) + length msgs) <= buffer_size)%Z ->
  exists c1,
    start_reader_turns c msgs = Ok (true, c1) /\
    ReadMessages (length (buf (msg_reciver c)) + length msgs) c1
    = Ok (buf (msg_reciver c) ++ msgs, None,
          dequeued c (length (buf (msg_reciver c)))).
Proof.
  intros Hinv Hc Hroom. exists (received_all c msgs).
  split; [now apply start_reader_turns_open |].
  pose proof (ReadMessages_waiting (received_all c msgs)
                (received_all_inv c msgs Hinv) Hc) as H.
  simpl in H. rewrite length_app in H. rewrite H. f_equal. f_equal.
  unfold dequeued, received_all. simpl.
  rewrite drop_all, drop_ge by (rewrite length_app; lia). reflexivity.
Qed.

Lemma reader_then_ReadMessages_fifo_witness :
  exists c1,
    start_reader_turns (NewMyWSConnection "web") [trap_frame; echo_frame]
    = Ok (true, c1) /\
    ReadMessages (length (buf (msg_reciver (NewMyWSConnection "web")))
                  + length [trap_frame; echo_frame]) c1
    = Ok (buf (msg_reciver (NewMyWSConnection "web")) ++ [trap_frame; echo_frame],
          None,
          dequeued (NewMyWSConnection "web")
            (length (buf (msg_reciver (NewMyWSConnection "web"))))).
Proof.
  apply (reader_then_ReadMessages_fifo (NewMyWSConnection "web")
           [trap_frame; echo_frame]).
  - split; reflexivity.
  - reflexivity.
  - vm_compute. discriminate.
Defined.

(** X2. After [Close], writing and reading fail and change nothing.  On
    every state that keeps the invariant [Close] returns a connection on
    which every [WriteMessage], whatever the message, and every
    [ReadMessage], whatever is still waiting on the inbound channel,
    return the error that names the connection and leave the connection as
    it is. *)
Theorem Close_then_Write_Read_fail (c : MyWSConnection) :
  conn_inv c ->
  exists c',
    Close c = Ok c' /\
    (forall m, WriteMessage c' m
               = Ok (Some (Name c +:+ " connection closed"), c')) /\
    ReadMessage c' = Ok (EmptyString, Some (Name c +:+ " connection closed"), c').
Proof.
  intros Hinv.
  destruct (Close_result c Hinv) as [c' [Hc [_ [[Hf _] [_ Hn]]]]].
  exists c'. split; [exact Hc |]. split.
  - intros m. rewrite (WriteMessage_closed c' m Hf). unfold closed_error.
    now rewrite Hn.
  - rewrite (ReadMessage_closed c' Hf). unfold closed_error. now rewrite Hn.
Qed.

Lemma Close_then_Write_Read_fail_witness :
  exists c',
    Close web_with_three = Ok c' /\
    (forall m, WriteMessage c' m
               = Ok (Some (Name web_with_three +:+ " connection closed"), c')) /\
    ReadMessage c'
    = Ok (EmptyString, Some (Name web_with_three +:+ " connection closed"), c').
Proof.
  apply (Close_then_Write_Read_fail web_with_three).
  split; reflexivity.
Defined.

(** X3. Used by one task at a time, [WriteMessage] and [ReadMessage] never
    panic and never end the process: on a state that keeps the invariant
    a write returns the error (closed), or queues the message (open, with
    room), or waits (open, full); a read returns the error (closed), or
    the oldest waiting message (open), or waits (open, nothing
    waiting). *)
Theorem Write_Read_outcomes (c : MyWSConnection) (m : string) :
  conn_inv c ->
  ((is_closed c = true /\ WriteMessage c m = Ok (Some (closed_error c), c)) \/
   (is_closed c = false /\ has_room c /\
    WriteMessage c m = Ok (None, enqueued c m)) \/
   (is_closed c = false /\ ~ has_room c /\ WriteMessage c m = Blocked)) /\
  ((is_closed c = true /\
    ReadMessage c = Ok (EmptyString, Some (closed_error c), c)) \/
   (is_closed c = false /\
    exists m', head (buf (msg_reciver c)) = Some m' /\
               ReadMessage c = Ok (m', None, dequeued c 1)) \/
   (is_closed c = false /\ buf (msg_reciver c) = [] /\ ReadMessage c = Blocked)).
Proof.
  intros Hinv. split.
  - exact (WriteMessage_cases c m Hinv).
  - exact (ReadMessage_cases c Hinv).
Qed.

Lemma Write_Read_outcomes_witness :
  ((is_closed web_with_three = true /\
    WriteMessage web_with_three resume_command
    = Ok (Some (closed_error web_with_three), web_with_three)) \/
   (is_closed web_with_three = false /\ has_room web_with_three /\
    WriteMessage web_with_three resume_command
    = Ok (None, enqueued web_with_three resume_command)) \/
   (is_closed web_with_three = false /\ ~ has_room web_with_three /\
    WriteMessage web_with_three resume_command = Blocked)) /\
  ((is_closed web_with_three = true /\
    ReadMessage web_with_three
    = Ok (EmptyString, Some (closed_error web_with_three), web_with_three)) \/
   (is_closed web_with_three = false /\
    exists m', head (buf (msg_reciver web_with_three)) = Some m' /\
               ReadMessage web_with_three = Ok (m', None, dequeued web_with_three 1)) \/
   (is_closed web_with_three = false /\ buf (msg_reciver web_with_three) = [] /\
    ReadMessage web_with_three = Blocked)).
Proof.
  apply (Write_Read_outcomes web_with_three resume_command).
  split; reflexivity.
Defined.

(** X4. The test and the send of [WriteMessage] are not one step.  On an
    open connection the test of the flag passes; when another task runs
    [Close] before the send, the send is on a closed channel and panics,
    whatever the message. *)
Theorem WriteMessage_Close_race (c : MyWSConnection) :
  conn_inv c -> is_closed c = false ->
  is_Closed c = false /\
  exists c',
    Close c = Ok c' /\
    forall m, WriteMessage_send c' m = Panic "send on closed channel".
Proof.
  intros Hinv Hc. split; [exact Hc |].
  destruct (Close_result c Hinv) as [c' [Hcl [_ [_ [[Hs _] _]]]]].
  exists c'. split; [exact Hcl |].
  intros m. unfold WriteMessage_send, chan_send. now rewrite Hs.
Qed.

Lemma WriteMessage_Close_race_witness :
  is_Closed (NewMyWSConnection "web") = false /\
  exists c',
    Close (NewMyWSConnection "web") = Ok c' /\
    forall m, WriteMessage_send c' m = Panic "send on closed channel".
Proof.
  apply (WriteMessage_Close_race (NewMyWSConnection "web")).
  - split; reflexivity.
  - reflexivity.
Defined.

(** X5. An error of the socket ends the task that met it and closes the
    connection.  On a state that keeps the invariant, the reader task on a
    read error, and the writer task on a write error for a message it
    took off the outbound channel, return (no panic) and leave the
    connection with its flag set, its socket closed and both channels
    closed; so does the writer task when it finds the outbound channel
    closed and empty. *)
Theorem start_socket_error_closes (c : MyWSConnection) :
  conn_inv c ->
  (forall e, exists c',
      start_reader_turn c (inr e) = Ok (false, c') /\
      shut c' /\ channels_closed c') /\
  (forall e, buf (msg_sender c) <> [] ->
             exists c',
               start_writer_turn c (Some e) = Ok (false, c') /\
               shut c' /\ channels_closed c') /\
  (buf (msg_sender c) = [] -> is_closed c = true ->
   exists c',
     start_writer_turn c None = Ok (false, c') /\
     shut c' /\ channels_closed c').
Proof.
  intros Hinv. split; [| split].
  - intros e. destruct (Close_result c Hinv) as [c' [Hc [_ [Hshut [Hch _]]]]].
    exists c'. unfold start_reader_turn. rewrite Hc. auto.
  - intros e Hne. unfold start_writer_turn.
    destruct (buf (msg_sender c)) as [|m rest] eqn:Hb; [congruence |].
    match goal with
    | |- context [Close ?x] =>
        assert (Hinv1 : conn_inv x) by (destruct Hinv; split; simpl; assumption);
        destruct (Close_result x Hinv1) as [c' [Hc [_ [Hshut [Hch _]]]]]
    end.
    exists c'. rewrite Hc. unfold is_Closed. simpl. destruct (is_closed c); auto.
  - intros Hb Hc. destruct (Close_result c Hinv) as [c' [Hcl [_ [Hshut [Hch _]]]]].
    exists c'. unfold start_writer_turn. destruct Hinv as [Hs _].
    rewrite Hb, Hs, Hc, Hcl. auto.
Qed.

Lemma start_socket_error_closes_witness :
  (forall e, exists c',
      start_reader_turn (enqueued web_with_three resume_command) (inr e)
      = Ok (false, c') /\
      shut c' /\ channels_closed c') /\
  (forall e, buf (msg_sender (enqueued web_with_three resume_command)) <> [] ->
             exists c',
               start_writer_turn (enqueued web_with_three resume_command) (Some e)
               = Ok (false, c') /\
               shut c' /\ channels_closed c') /\
  (buf (msg_sender (enqueued web_with_three resume_command)) = [] ->
   is_closed (enqueued web_with_three resume_command) = true ->
   exists c',
     start_writer_turn (enqueued web_with_three resume_command) None
     = Ok (false, c') /\
     shut c' /\ channels_closed c').
Proof.
  apply (start_socket_error_closes (enqueued web_with_three resume_command)).
  split; reflexivity.
Defined.

(** ** More on the handlers *)

Section MoreHandlerFacts.

Variable MYDEBUGGER_NAME : string.
Variable json_Unmarshal : string -> option DebuggerPaused.

Local Abbreviation from_web :=
  (handle_msg_from_web MYDEBUGGER_NAME json_Unmarshal).

(** The two ways the handler of the page side returns: it forwards what
    it was given and has done nothing, or it forwards nothing and has put
    at most one command on the outbound channel of its source. *)
Lemma from_web_result _from cinfo msg data is_ok c' :
  from_web _from cinfo msg = Ok (data, is_ok, c') ->
  (is_ok = true /\ data = msg /\ c' = _from) \/
  (is_ok = false /\ data = EmptyString /\
   (c' = _from \/ c' = enqueued _from stepOut_command
    \/ c' = enqueued _from resume_command)).
Proof.
  unfold handle_msg_from_web, process_debugger_paused. intros H.
  destruct (strings.Contains msg id_zero); [injection H as <- <- <-; auto |].
  destruct (json_Unmarshal msg) as [cdp_res|]; [|injection H as <- <- <-; auto].
  destruct (String.eqb (Method cdp_res) "Debugger.paused");
    [|injection H as <- <- <-; auto].
  destruct (negb _); [simpl in H; injection H as <- <- <-; auto |].
  destruct (CallFrames (Params cdp_res)) as [|frame0 frames]; [discriminate H |].
  destruct (String.eqb (FunctionName frame0) MYDEBUGGER_NAME).
  - destruct (WriteMessage _from stepOut_command) as [[[e|] c1]| | |] eqn:Hw;
      simpl in H; try discriminate H; injection H as <- <- <-.
    + left. apply WriteMessage_error in Hw as [_ ->]. auto.
    + right. apply WriteMessage_ok in Hw as [-> _]. auto.
  - destruct (WriteMessage _from resume_command) as [[[e|] c1]| | |] eqn:Hw;
      simpl in H; try discriminate H; injection H as <- <- <-.
    + left. apply WriteMessage_error in Hw as [_ ->]. auto.
    + right. apply WriteMessage_ok in Hw as [-> _]. auto 6.
Qed.

(** X6. The handler of the page side never rewrites a frame and never both
    forwards and injects.  Whenever it returns: with [true] the message is
    the one it was given, byte for byte, and the source is untouched; with
    [false] the message is empty.  In both cases the inbound channel, the
    flag and the socket of the source are as before, and its outbound
    channel is as before or longer by exactly one of the two commands. *)
Theorem from_web_forwards_unchanged _from cinfo msg data is_ok c' :
  from_web _from cinfo msg = Ok (data, is_ok, c') ->
  (is_ok = true -> data = msg /\ c' = _from) /\
  (is_ok = false -> data = EmptyString) /\
  msg_reciver c' = msg_reciver _from /\
  is_closed c' = is_closed _from /\
  conn_closed c' = conn_closed _from /\
  closed (msg_sender c') = closed (msg_sender _from) /\
  (buf (msg_sender c') = buf (msg_sender _from) \/
   buf (msg_sender c') = buf (msg_sender _from) ++ [stepOut_command] \/
   buf (msg_sender c') = buf (msg_sender _from) ++ [resume_command]).
Proof.
  intros H.
  destruct (from_web_result _ _ _ _ _ _ H)
    as [[-> [-> ->]] | [-> [-> [-> | [-> | ->]]]]]; simpl;
    repeat split; auto; discriminate.
Qed.

(** X7. Everything else passes through.  A message without the text of the
    echo-drop rule that the decoder rejects, or that is not a
    [Debugger.paused], or that is a pause with another reason than
    [other] or with a hit breakpoint, is returned as it is with [true],
    and the source is untouched: whatever the state of the source (closed
    or full) and whatever the call frames (none, too). *)
Theorem from_web_passes_other_frames _from cinfo msg :
  strings.Contains msg id_zero = false ->
  (json_Unmarshal msg = None \/
   exists cdp_res,
     json_Unmarshal msg = Some cdp_res /\
     (Method cdp_res <> "Debugger.paused" \/
      Reason (Params cdp_res) <> "other" \/
      HitBreakpoints (Params cdp_res) <> [])) ->
  from_web _from cinfo msg = Ok (msg, true, _from).
Proof.
  intros Hid Hcase. unfold handle_msg_from_web, process_debugger_paused.
  rewrite Hid. destruct Hcase as [-> | [cdp_res [-> Hcase]]]; [reflexivity |].
  destruct (String.eqb_spec (Method cdp_res) "Debugger.paused") as [Hm | Hm];
    [|reflexivity].
  destruct Hcase as [Hne | [Hne | Hne]]; [congruence | |].
  - apply String.eqb_neq in Hne. now rewrite Hne.
  - destruct (HitBreakpoints (Params cdp_res)); [congruence |].
    simpl. now rewrite andb_false_r.
Qed.


End MoreHandlerFacts.

Lemma from_web_forwards_unchanged_witness :
  (true = true ->
   breakpoint_frame = breakpoint_frame /\
   NewMyWSConnection "web" = NewMyWSConnection "web") /\
  (true = false -> breakpoint_frame = EmptyString) /\
  msg_reciver (NewMyWSConnection "web") = msg_reciver (NewMyWSConnection "web") /\
  is_closed (NewMyWSConnection "web") = is_closed (NewMyWSConnection "web") /\
  conn_closed (NewMyWSConnection "web") = conn_closed (NewMyWSConnection "web") /\
  closed (msg_sender (NewMyWSConnection "web"))
  = closed (msg_sender (NewMyWSConnection "web")) /\
  (buf (msg_sender (NewMyWSConnection "web"))
   = buf (msg_sender (NewMyWSConnection "web")) \/
   buf (msg_sender (NewMyWSConnection "web"))
   = buf (msg_sender (NewMyWSConnection "web")) ++ [stepOut_command] \/
   buf (msg_sender (NewMyWSConnection "web"))
   = buf (msg_sender (NewMyWSConnection "web")) ++ [resume_command]).
Proof.
  apply (from_web_forwards_unchanged "lovedebug" Json.Unmarshal
           (NewMyWSConnection "web") web_info breakpoint_frame
           breakpoint_frame true (NewMyWSConnection "web")).
  vm_compute. reflexivity.
Defined.

Lemma from_web_passes_other_frames_witness :
  handle_msg_from_web "lovedebug" Json.Unmarshal closed_web web_info
    breakpoint_frame
  = Ok (breakpoint_frame, true, closed_web).
Proof.
  apply (from_web_passes_other_frames "lovedebug" Json.Unmarshal closed_web
           web_info breakpoint_frame).
  - vm_compute. reflexivity.
  - right. eexists. split; [vm_compute; reflexivity |].
    right. right. simpl. discriminate.
Defined.


(** ** The forwarding loop over several turns *)

Section FilterLoop.

(** A handler that forwards a message as it is or not at all, and leaves
    the inbound channel and the flags of its source alone. *)
Variable h : TransimiterHandler.
Hypothesis h_filters :
  forall c cinfo m d ok c',
    h c cinfo m = Ok (d, ok, c') ->
    msg_reciver c' = msg_reciver c /\ is_closed c' = is_closed c /\
    closed (msg_sender c') = closed (msg_sender c) /\ (ok = true -> d = m).



End FilterLoop.



(** X10. The loop from DevTools to the page skips nothing.  With both
    sides open, [n] messages waiting on the DevTools side and room for
    [n] more on the outbound channel of the page side, [n] turns return
    and go on: the [n] messages are off the inbound channel, and the
    outbound channel of the page side is longer by exactly their
    rewritings, one for each, in the order read.  Nothing else changes on
    either side. *)
Theorem transimiter_devtools_forwards_all
    (n : nat) (_from _to : MyWSConnection) (cinfo : ConnectionInfo) :
  conn_inv _from -> is_closed _from = false ->
  n <= length (buf (msg_reciver _from)) ->
  conn_inv _to -> is_closed _to = false ->
  (Z.of_nat (length (buf (msg_sender _to)) + n) <= buffer_size)%Z ->
  transimiter_turns n (Some handle_msg_from_devtools) _from _to cinfo
  = Ok (true, dequeued _from n,
        enqueued_all _to
          (map devtools_rewrite (take n (buf (msg_reciver _from))))).
Proof.
  revert _from _to. induction n as [|n IH]; intros _from _to Hf Hfo Hn Ht Hto Hroom.
  - simpl. now rewrite dequeued_0, enqueued_all_nil.
  - cbn [transimiter_turns]. unfold transimiter_turn.
    destruct (ReadMessage_cases _from Hf)
      as [[Hx _] | [[_ [m [Hh ->]]] | [_ [Hb _]]]]; [congruence | |].
    2:{ rewrite Hb in Hn. simpl in Hn. lia. }
    simpl. unfold transimiter_deliver, call_handler, handle_msg_from_devtools.
    fold (devtools_rewrite m). simpl.
    rewrite (WriteMessage_open _to (devtools_rewrite m) Ht Hto)
      by (unfold has_room; lia).
    simpl.
    destruct (buf (msg_reciver _from)) as [|m' rest] eqn:Hb; [discriminate Hh |].
    injection Hh as ->. simpl in Hn.
    rewrite IH.
    + rewrite dequeued_dequeued, enqueued_all_cons. simpl. rewrite Hb.
      reflexivity.
    + now apply dequeued_inv.
    + exact Hfo.
    + simpl. rewrite Hb. simpl. rewrite drop_0. lia.
    + now apply enqueued_inv.
    + exact Hto.
    + simpl. rewrite length_app. simpl. lia.
Qed.

Lemma transimiter_devtools_forwards_all_witness :
  transimiter_turns 2 (Some handle_msg_from_devtools) devtools_with_two
    (NewMyWSConnection "web") devtools_info
  = Ok (true, dequeued devtools_with_two 2,
        enqueued_all (NewMyWSConnection "web")
          (map devtools_rewrite (take 2 (buf (msg_reciver devtools_with_two))))).
Proof.
  apply (transimiter_devtools_forwards_all 2 devtools_with_two
           (NewMyWSConnection "web") devtools_info).
  - split; reflexivity.
  - reflexivity.
  - simpl. lia.
  - split; reflexivity.
  - reflexivity.
  - vm_compute. discriminate.
Defined.

(** X11. A closed source ends the loop and closes the destination.  When
    the source is closed, a turn of [transimiter] returns at its read,
    with any handler and whatever is still waiting on the inbound channel
    of the source (it is not forwarded); the deferred calls then return
    and leave both connections with flag set, socket closed and channels
    closed. *)
Theorem transimiter_source_closed
    (handler : option TransimiterHandler) (_from _to : MyWSConnection)
    (cinfo : ConnectionInfo) :
  conn_inv _from -> conn_inv _to -> is_closed _from = true ->
  transimiter_turn handler _from _to cinfo = Ok (false, _from, _to) /\
  exists from' to',
    transimiter_return _from _to = Ok (from', to') /\
    shut from' /\ shut to' /\ channels_closed from' /\ channels_closed to'.
Proof.
  intros Hf Ht Hc. split.
  - unfold transimiter_turn. now rewrite (ReadMessage_closed _from Hc).
  - destruct (Close_result _from Hf) as [f' [Hcf [_ [Hsf [Hchf _]]]]].
    destruct (Close_result _to Ht) as [t' [Hct [_ [Hst [Hcht _]]]]].
    exists f', t'. unfold transimiter_return. rewrite Hcf. simpl.
    rewrite Hct. auto.
Qed.

Lemma transimiter_source_closed_witness :
  transimiter_turn (Some handle_msg_from_devtools) closed_web
    devtools_with_two web_info
  = Ok (false, closed_web, devtools_with_two) /\
  exists from' to',
    transimiter_return closed_web devtools_with_two = Ok (from', to') /\
    shut from' /\ shut to' /\ channels_closed from' /\ channels_closed to'.
Proof.
  apply (transimiter_source_closed (Some handle_msg_from_devtools) closed_web
           devtools_with_two web_info).
  - split; reflexivity.
  - split; reflexivity.
  - reflexivity.
Defined.

(** X12. A closed destination ends the loop and closes the source.  With
    the source open and a message waiting, and the destination closed,
    the turn of the loop from DevTools reads the message, fails to write
    it and returns: the message is off the inbound channel and is not
    delivered.  The deferred calls then return and leave both connections
    with flag set, socket closed and channels closed. *)
Theorem transimiter_destination_closed
    (_from _to : MyWSConnection) (cinfo : ConnectionInfo)
    (m : string) (rest : list string) :
  conn_inv _from -> is_closed _from = false ->
  buf (msg_reciver _from) = m :: rest ->
  conn_inv _to -> is_closed _to = true ->
  transimiter_turn (Some handle_msg_from_devtools) _from _to cinfo
  = Ok (false, dequeued _from 1, _to) /\
  exists from' to',
    transimiter_return (dequeued _from 1) _to = Ok (from', to') /\
    shut from' /\ shut to' /\ channels_closed from' /\ channels_closed to'.
Proof.
  intros Hf Hfo Hb Ht Hc. split.
  - unfold transimiter_turn.
    destruct (ReadMessage_cases _from Hf)
      as [[Hx _] | [[_ [m' [Hh ->]]] | [_ [Hb' _]]]]; [congruence | | congruence].
    simpl. unfold transimiter_deliver, call_handler, handle_msg_from_devtools.
    simpl. now rewrite (WriteMessage_closed _to _ Hc).
  - destruct (Close_result _ (dequeued_inv _from 1 Hf))
      as [f' [Hcf [_ [Hsf [Hchf _]]]]].
    destruct (Close_result _to Ht) as [t' [Hct [_ [Hst [Hcht _]]]]].
    exists f', t'. unfold transimiter_return. rewrite Hcf. simpl.
    rewrite Hct. auto.
Qed.

Lemma transimiter_destination_closed_witness :
  transimiter_turn (Some handle_msg_from_devtools) devtools_with_two closed_web
    devtools_info
  = Ok (false, dequeued devtools_with_two 1, closed_web) /\
  exists from' to',
    transimiter_return (dequeued devtools_with_two 1) closed_web
    = Ok (from', to') /\
    shut from' /\ shut to' /\ channels_closed from' /\ channels_closed to'.
Proof.
  apply (transimiter_destination_closed devtools_with_two closed_web
           devtools_info overlay_frame [echo_frame]).
  - split; reflexivity.
  - reflexivity.
  - reflexivity.
  - split; reflexivity.
  - reflexivity.
Defined.

(** ** The life of a session *)

Lemma task_eqb_eq (a b : task) : task_eqb a b = true <-> a = b.
Proof.
  destruct a as [d p | d w p], b as [d' p' | d' w' p']; simpl;
    try (split; [discriminate | intros [=]]).
  - rewrite andb_true_iff, Nat.eqb_eq, String.eqb_eq.
    split; [intros [-> ->]; reflexivity | intros [= -> ->]; auto].
  - rewrite !andb_true_iff, !Nat.eqb_eq, String.eqb_eq.
    split; [intros [[-> ->] ->]; reflexivity | intros [= -> -> ->]; auto].
Qed.

Lemma In_remove_task (t t' : task) (l : list task) :
  In t' (remove_task t l) <-> In t' l /\ t <> t'.
Proof.
  unfold remove_task. rewrite List.filter_In, negb_true_iff.
  split; intros [Hin Hne]; (split; [exact Hin |]).
  - intros Heq. apply task_eqb_eq in Heq. congruence.
  - destruct (task_eqb t t') eqn:He; [|reflexivity].
    apply task_eqb_eq in He. contradiction.
Qed.

Lemma Forall_remove_task (P : task -> Prop) (t : task) (l : list task) :
  Forall P l -> Forall P (remove_task t l).
Proof.
  rewrite !List.Forall_forall. intros H x Hx.
  apply In_remove_task in Hx as [Hx _]. auto.
Qed.

(** Removing a task that has not dialled leaves the sessions as they
    are. *)
Lemma live_sessions_remove_start (d : ptr) (p path : string) (l : list task) :
  List.filter
    (fun t => match t with
              | task_session _ _ p' => String.eqb p' path
              | task_start _ _ => false
              end)
    (remove_task (task_start d p) l)
  = List.filter
      (fun t => match t with
                | task_session _ _ p' => String.eqb p' path
                | task_start _ _ => false
                end) l.
Proof.
  unfold remove_task. induction l as [|t l IH]; [reflexivity |].
  cbn [List.filter]. destruct t as [d' p' | d' w' p'].
  - destruct (negb (task_eqb (task_start d p) (task_start d' p')));
      cbn [List.filter]; exact IH.
  - simpl. destruct (String.eqb p' path); [f_equal |]; exact IH.
Qed.

Lemma task_ok_length (h h' : list MyWSConnection) (t : task) :
  length h <= length h' -> task_ok h t -> task_ok h' t.
Proof. destruct t; simpl; intros; intuition lia. Qed.

(** [Close] through a pointer into a heap of connections that keep the
    invariant. *)
Lemma heap_Close_result (h : list MyWSConnection) (p : ptr) :
  Forall conn_inv h -> p < length h ->
  exists c c',
    h !! p = Some c /\ Close c = Ok c' /\
    heap_Close h p = Ok (<[p := c']> h) /\
    Forall conn_inv (<[p := c']> h) /\
    shut c' /\ channels_closed c'.
Proof.
  intros Hall Hp.
  destruct (lookup_lt_is_Some_2 h p Hp) as [c Hc].
  pose proof (Forall_lookup_1 _ _ _ _ Hall Hc) as Hinv.
  destruct (Close_result c Hinv) as [c' [Hcl [Hinv' [Hshut [Hch _]]]]].
  exists c, c'. split; [exact Hc |]. split; [exact Hcl |].
  split; [unfold heap_Close, ptr in *; now rewrite Hc, Hcl |].
  split; [now apply Forall_insert |]. auto.
Qed.

(** What the teardown of a session gives. *)
Lemma start_transmiter_task_end_result
    (w : World) (devtools web : ptr) (path : string) :
  world_inv w -> In (task_session devtools web path) (tasks w) ->
  exists cd cw,
    shut cd /\ channels_closed cd /\ shut cw /\ channels_closed cw /\
    start_transmiter_task_end w devtools web path
    = Ok {| CONNECTION_POOL := delete path (CONNECTION_POOL w);
            heap := <[devtools := cd]> (<[web := cw]> (heap w));
            tasks := remove_task (task_session devtools web path) (tasks w) |} /\
    Forall conn_inv (<[devtools := cd]> (<[web := cw]> (heap w))) /\
    devtools < length (heap w) /\ web < length (heap w) /\ devtools <> web.
Proof.
  intros [Hheap Htasks] Hin.
  rewrite List.Forall_forall in Htasks.
  destruct (Htasks _ Hin) as [Hd [Hw Hne]].
  destruct (heap_Close_result (heap w) web Hheap Hw)
    as [cw0 [cw [_ [_ [Hc1 [Hheap1 [Hsw Hcw]]]]]]].
  assert (Hd1 : devtools < length (<[web := cw]> (heap w)))
    by now rewrite length_insert.
  destruct (heap_Close_result _ devtools Hheap1 Hd1)
    as [cd0 [cd [_ [_ [Hc2 [Hheap2 [Hsd Hcd]]]]]]].
  exists cd, cw. repeat (split; [assumption |]).
  split; [| auto].
  unfold start_transmiter_task_end. rewrite Hc1. simpl. now rewrite Hc2.
Qed.

Lemma world_step_inv (w w' : World) :
  world_inv w -> world_step w w' -> world_inv w'.
Proof.
  intros Hinv Hstep. pose proof Hinv as [Hheap Htasks].
  destruct Hstep as [path upgrade w' H | d path dial w' Hin H
                    | d web path w' Hin H | p c c' Hp Hstep].
  - unfold websocket_handler in H.
    destruct (CONNECTION_POOL w !! path); [injection H as <-; exact Hinv |].
    destruct upgrade; [discriminate H |]. injection H as <-.
    split; simpl.
    + apply Forall_app. split; [exact Hheap |].
      constructor; [apply NewMyWSConnection_inv | constructor].
    + apply Forall_app. split.
      * eapply Forall_impl; [exact Htasks |]. intros t.
        apply task_ok_length. rewrite length_app. lia.
      * constructor; [| constructor]. simpl. rewrite length_app. simpl. lia.
  - assert (Hd : d < length (heap w)).
    { rewrite List.Forall_forall in Htasks. exact (Htasks _ Hin). }
    unfold start_transmiter_task_begin in H. destruct dial.
    + destruct (heap_Close_result (heap w) d Hheap Hd)
        as [c0 [c1 [_ [_ [Hc [Hheap1 _]]]]]].
      rewrite Hc in H. injection H as <-. split; simpl; [exact Hheap1 |].
      apply Forall_remove_task. eapply Forall_impl; [exact Htasks |].
      intros t. apply task_ok_length. now rewrite length_insert.
    + injection H as <-. split; simpl.
      * apply Forall_app. split; [exact Hheap |].
        constructor; [apply NewMyWSConnection_inv | constructor].
      * apply Forall_app. split.
        -- apply Forall_remove_task. eapply Forall_impl; [exact Htasks |].
           intros t. apply task_ok_length. rewrite length_app. lia.
        -- constructor; [| constructor]. simpl. rewrite length_app. simpl. lia.
  - destruct (start_transmiter_task_end_result w d web path Hinv Hin)
      as [cd [cw [_ [_ [_ [_ [He [Hheap2 _]]]]]]]].
    rewrite He in H. injection H as <-. split; simpl; [exact Hheap2 |].
    apply Forall_remove_task. eapply Forall_impl; [exact Htasks |].
    intros t. apply task_ok_length. now rewrite !length_insert.
  - split; simpl.
    + apply Forall_insert; [exact Hheap |].
      exact (conn_step_inv c c' (Forall_lookup_1 _ _ _ _ Hheap Hp) Hstep).
    + eapply Forall_impl; [exact Htasks |].
      intros t. apply task_ok_length. now rewrite length_insert.
Qed.

Lemma world_reachable_inv (w : World) : world_reachable w -> world_inv w.
Proof.
  induction 1 as [|w w' _ IH Hstep].
  - split; constructor.
  - exact (world_step_inv w w' IH Hstep).
Qed.

Lemma one_started_reachable : world_reachable one_started.
Proof.
  apply (reach_world_step init_world); [apply reach_init |].
  apply (step_request init_world "/p/1" None). reflexivity.
Qed.

(** X13. A failed dial ends the session before it starts.  For a task
    that was started for a request, when the dial of the page fails the
    function returns (no panic): the DevTools-side connection is closed
    (flag, socket and both channels), every other connection is as it
    was, the registry is as it was, the task is gone and no session was
    added for any path. *)
Theorem dial_failure_closes_devtools
    (w : World) (devtools : ptr) (path err : string) :
  world_inv w -> In (task_start devtools path) (tasks w) ->
  exists w' c',
    start_transmiter_task_begin w devtools path (Some err) = Ok w' /\
    CONNECTION_POOL w' = CONNECTION_POOL w /\
    heap w' !! devtools = Some c' /\ shut c' /\ channels_closed c' /\
    (forall q, q <> devtools -> heap w' !! q = heap w !! q) /\
    ~ In (task_start devtools path) (tasks w') /\
    forall path', live_sessions w' path' = live_sessions w path'.
Proof.
  intros [Hheap Htasks] Hin.
  assert (Hd : devtools < length (heap w)).
  { rewrite List.Forall_forall in Htasks. exact (Htasks _ Hin). }
  destruct (heap_Close_result (heap w) devtools Hheap Hd)
    as [c0 [c' [_ [_ [Hc [_ [Hshut Hch]]]]]]].
  eexists. exists c'. unfold start_transmiter_task_begin. rewrite Hc. simpl.
  split; [reflexivity |]. simpl. split; [reflexivity |].
  split; [now apply list_lookup_insert_eq |].
  split; [exact Hshut |]. split; [exact Hch |].
  split; [intros q Hq; now apply list_lookup_insert_ne |].
  split.
  - intros Hx. apply In_remove_task in Hx as [_ Hx]. now apply Hx.
  - intros path'. unfold live_sessions. simpl.
    apply live_sessions_remove_start.
Qed.

Lemma dial_failure_closes_devtools_witness :
  exists w' c',
    start_transmiter_task_begin one_started 0 "/p/1" (Some "connection refused")
    = Ok w' /\
    CONNECTION_POOL w' = CONNECTION_POOL one_started /\
    heap w' !! 0 = Some c' /\ shut c' /\ channels_closed c' /\
    (forall q, q <> 0 -> heap w' !! q = heap one_started !! q) /\
    ~ In (task_start 0 "/p/1") (tasks w') /\
    forall path', live_sessions w' path' = live_sessions one_started path'.
Proof.
  apply (dial_failure_closes_devtools one_started 0 "/p/1" "connection refused").
  - exact (world_reachable_inv one_started one_started_reachable).
  - simpl. left. reflexivity.
Defined.

(** X14. The teardown of a session closes both sides and clears the path.
    For a live session, the part of [start_transmiter_task] after the
    wait returns (no panic): the registry has no entry for the path of
    the session, both connections of the session are closed (flag, socket
    and both channels), and the session is no longer among the tasks. *)
Theorem teardown_closes_and_unregisters
    (w : World) (devtools web : ptr) (path : string) :
  world_inv w -> In (task_session devtools web path) (tasks w) ->
  exists w' cd cw,
    start_transmiter_task_end w devtools web path = Ok w' /\
    CONNECTION_POOL w' !! path = None /\
    heap w' !! devtools = Some cd /\ heap w' !! web = Some cw /\
    shut cd /\ channels_closed cd /\ shut cw /\ channels_closed cw /\
    ~ In (task_session devtools web path) (tasks w').
Proof.
  intros Hinv Hin.
  destruct (start_transmiter_task_end_result w devtools web path Hinv Hin)
    as [cd [cw [Hsd [Hcd [Hsw [Hcw [He [_ [Hd [Hw Hne]]]]]]]]]].
  eexists. exists cd, cw. split; [exact He |]. simpl.
  split; [apply lookup_delete_eq |].
  split; [apply list_lookup_insert_eq; now rewrite length_insert |].
  split.
  { rewrite list_lookup_insert_ne by exact Hne.
    now apply list_lookup_insert_eq. }
  repeat (split; [assumption |]).
  intros Hx. apply In_remove_task in Hx as [_ Hx]. now apply Hx.
Qed.

Lemma teardown_closes_and_unregisters_witness :
  exists w' cd cw,
    start_transmiter_task_end one_session 0 1 "/p/1" = Ok w' /\
    CONNECTION_POOL w' !! "/p/1" = None /\
    heap w' !! 0 = Some cd /\ heap w' !! 1 = Some cw /\
    shut cd /\ channels_closed cd /\ shut cw /\ channels_closed cw /\
    ~ In (task_session 0 1 "/p/1") (tasks w').
Proof.
  apply (teardown_closes_and_unregisters one_session 0 1 "/p/1").
  - exact (world_reachable_inv one_session one_session_reachable).
  - simpl. left. reflexivity.
Defined.

Lemma two_sessions_inv : world_inv two_sessions.
Proof.
  split; simpl.
  - repeat constructor.
  - repeat constructor; simpl; lia.
Qed.

(** X15. The teardown of one session leaves the others alone.  When the
    teardown of a live session returns, the heap has the same length,
    every connection other than the two of the session is as it was, the
    registry is as it was for every other path, and the other tasks are
    the tasks that were running, no more and no fewer. *)
Theorem teardown_leaves_others
    (w : World) (devtools web : ptr) (path : string) :
  world_inv w -> In (task_session devtools web path) (tasks w) ->
  exists w',
    start_transmiter_task_end w devtools web path = Ok w' /\
    length (heap w') = length (heap w) /\
    (forall q, q <> devtools -> q <> web -> heap w' !! q = heap w !! q) /\
    (forall path', path' <> path ->
                   CONNECTION_POOL w' !! path' = CONNECTION_POOL w !! path') /\
    (forall t, t <> task_session devtools web path ->
               (In t (tasks w') <-> In t (tasks w))).
Proof.
  intros Hinv Hin.
  destruct (start_transmiter_task_end_result w devtools web path Hinv Hin)
    as [cd [cw [_ [_ [_ [_ [He _]]]]]]].
  eexists. split; [exact He |]. simpl.
  split; [now rewrite !length_insert |].
  split.
  { intros q Hd Hw. rewrite !list_lookup_insert_ne by congruence. reflexivity. }
  split.
  { intros path' Hp. apply lookup_delete_ne. congruence. }
  intros t Ht. rewrite In_remove_task. split; [intros [H _]; exact H |].
  intros H. split; [exact H | congruence].
Qed.

Lemma teardown_leaves_others_witness :
  exists w',
    start_transmiter_task_end two_sessions 0 1 "/p/1" = Ok w' /\
    length (heap w') = length (heap two_sessions) /\
    (forall q, q <> 0 -> q <> 1 -> heap w' !! q = heap two_sessions !! q) /\
    (forall path', path' <> "/p/1" ->
                   CONNECTION_POOL w' !! path'
                   = CONNECTION_POOL two_sessions !! path') /\
    (forall t, t <> task_session 0 1 "/p/1" ->
               (In t (tasks w') <-> In t (tasks two_sessions))).
Proof.
  apply (teardown_leaves_others two_sessions 0 1 "/p/1").
  - exact two_sessions_inv.
  - simpl. left. reflexivity.
Defined.


